(** * Streaming provider handlers: Anthropic (two variants) and OpenAI

    A shallow embedding of [src/api/providers/anthropic.ts] (the handler and
    the second copy of it that follows in the same file) and of
    [src/api/providers/openai.ts], with the properties of the streaming
    normalisation layer stated over it.

    Conventions of the embedding:
    - an async generator is the finite list of values it yields, in order,
      together with the value it returns;
    - the [for await] loop over the backend stream is a left-to-right fold of
      a per-chunk step function that threads the local variables of the loop
      and collects what the step yields;
    - token counts are [N], [maxTokens] is a [Z], an optional or nullable
      field is an [option]. *)

From Stdlib Require Import ZArith Lia.
From stdpp Require Import base option list strings gmap.

(** ** JavaScript operators used by the handlers *)
Module Js.

(** [n || d] on a number. *)
Definition or_num (n d : N) : N := if (n =? 0)%N then d else n.

(** [n || undefined] on a number that may be absent or null. *)
Definition or_undefined (n : option N) : option N :=
  match n with
  | Some v => if (v =? 0)%N then None else Some v
  | None => None
  end.

(** [z || d] on an optional integer. *)
Definition or_int (z : option Z) (d : Z) : Z :=
  match z with
  | Some v => if (v =? 0)%Z then d else v
  | None => d
  end.

(** Truthiness of a string: every string but the empty one. *)
Definition truthy_str (s : string) : bool := negb (String.eqb s EmptyString).

(** [s || d] on a string. *)
Definition or_str (s d : string) : string := if truthy_str s then s else d.

(** [x ?? d]. *)
Definition nullish {A} (x : option A) (d : A) : A :=
  match x with Some v => v | None => d end.

(** [arr[i]] for an index that may be negative or past the end. *)
Definition index {A} (arr : list A) (i : Z) : option A :=
  if (i <? 0)%Z then None else arr !! Z.to_nat i.

(** The property names every ordinary object inherits from
    [Object.prototype]. *)
Definition object_prototype_names : list string :=
  [ "constructor"; "__defineGetter__"; "__defineSetter__"; "hasOwnProperty";
    "__lookupGetter__"; "__lookupSetter__"; "isPrototypeOf";
    "propertyIsEnumerable"; "toString"; "valueOf"; "__proto__";
    "toLocaleString" ].

Definition inherited_name (name : string) : bool :=
  bool_decide (name ∈ object_prototype_names).

(** [name in obj] for an object literal whose own properties are [own]: the
    own keys and the inherited names. *)
Definition has_property {V} (own : gmap string V) (name : string) : bool :=
  bool_decide (is_Some (own !! name)) || inherited_name name.

(** The line feed written ["\n"] in the source. *)
Definition LF : string := String (Ascii.ascii_of_nat 10) EmptyString.

End Js.

(** ** Types shared by the handlers ([shared/api], [transform/stream]) *)
Module Api.

(** The only field of [ModelInfo] the handlers read. *)
Record ModelInfo := { maxTokens : option Z }.

#[global] Instance ModelInfo_inhabited : Inhabited ModelInfo :=
  populate {| maxTokens := None |}.

(** The fields of [ApiHandlerOptions] the modelled methods read. *)
Record ApiHandlerOptions := {
  apiModelId : option string;
  openAiModelId : option string;
  includeStreamOptions : option bool
}.

(** [ApiStreamChunk]: what [createMessage] yields. *)
Inductive ApiStreamChunk :=
| TextEvent (text : string)
| UsageEvent (inputTokens outputTokens : N)
             (cacheWriteTokens cacheReadTokens : option N).

Definition ApiStream := list ApiStreamChunk.

Definition is_text (e : ApiStreamChunk) : bool :=
  match e with TextEvent _ => true | UsageEvent _ _ _ _ => false end.

Definition is_usage (e : ApiStreamChunk) : bool :=
  match e with TextEvent _ => false | UsageEvent _ _ _ _ => true end.

(** What an async generator does when driven to its end. *)
Record Generator (R : Type) := { yields : ApiStream; returned : R }.
Arguments yields {R} _.
Arguments returned {R} _.

(** Modelled from the spec: [traceableMethod] of [langsmith/config] is not
    among the sources. The specification makes the wrapper a pass-through:
    every element of the wrapped sequence is forwarded unchanged and in the
    same order, and the sink never alters the primary stream. *)
Definition traceableMethod {A R} (fn : A -> Generator R) : A -> Generator R :=
  fun inputs => fn inputs.

(** [yield* g]: re-yield everything [g] yields; the value of the
    expression, which the handlers drop, is what [g] returns. *)
Definition yield_star {R} (g : Generator R) : ApiStream := yields g.

(** The messages of the conversation ([Anthropic.Messages.MessageParam]). *)
Inductive Role := user | assistant.

Inductive ContentBlockParam :=
| TextBlockParam (text : string)
| ImageBlockParam (media_type data : string)
| ToolUseBlockParam (id name input : string)
| ToolResultBlockParam (tool_use_id content : string).

Inductive MessageContent :=
| ContentString (s : string)
| ContentBlocks (parts : list ContentBlockParam).

Record MessageParam := { role : Role; content : MessageContent }.

Definition is_user (m : MessageParam) : bool :=
  match role m with user => true | assistant => false end.

End Api.

(** ** The loop [for await (const chunk of stream) { ... }] *)
Module Loop.
Import Api.

Section ForAwait.
Context {S C : Type}.
(** One iteration: the loop variables before, the chunk, the loop
    variables after and what the iteration yielded. *)
Variable body : S -> C -> S * ApiStream.

Fixpoint for_await (vars : S) (stream : list C) : S * ApiStream :=
  match stream with
  | [] => (vars, [])
  | chunk :: rest =>
      let '(vars1, out) := body vars chunk in
      let '(vars2, outs) := for_await vars1 rest in
      (vars2, out ++ outs)
  end.
End ForAwait.

End Loop.

(** ** [OpenAiHandler] ([src/api/providers/openai.ts]) *)
Module OpenAi.
Import Api.

(** Chunks of a chat completion stream. *)
Record ChoiceDelta := { content : option string }.
Record Choice := { delta : ChoiceDelta }.
Record CompletionUsage := { prompt_tokens : N; completion_tokens : N }.
Record ChatCompletionChunk := {
  choices : list Choice;
  usage : option CompletionUsage
}.

(** The request. *)
Record ChatCompletionMessageParam := { msg_role : string; msg_content : string }.
Record StreamOptions := { include_usage : bool }.
Record ChatCompletionCreateParams := {
  model : string;
  messages : list ChatCompletionMessageParam;
  temperature : Z;
  stream : bool;
  stream_options : option StreamOptions;
  (** optional in the SDK's type; the handler's object literal has no such
      property *)
  max_tokens : option Z
}.

Record ModelDescriptor := { id : string; info : ModelInfo }.

Record OpenAiHandler := {
  options : ApiHandlerOptions;
  (** [client.chat.completions.create] *)
  client : ChatCompletionCreateParams -> list ChatCompletionChunk
}.

Section Handler.
(** Declared in [shared/api] and [transform/openai-format], which are not
    among the sources. *)
Variable openAiModelInfoSaneDefaults : ModelInfo.
Variable convertToOpenAiMessages :
  list MessageParam -> list ChatCompletionMessageParam.

Definition getModel (this : OpenAiHandler) : ModelDescriptor :=
  {| id := Js.nullish (openAiModelId (options this)) EmptyString;
     info := openAiModelInfoSaneDefaults |}.

Definition requestOptions (this : OpenAiHandler) (systemPrompt : string)
    (msgs : list MessageParam) : ChatCompletionCreateParams :=
  let openAiMessages :=
    {| msg_role := "system"; msg_content := systemPrompt |}
      :: convertToOpenAiMessages msgs in
  {| model := Js.nullish (openAiModelId (options this)) EmptyString;
     messages := openAiMessages;
     temperature := 0;
     stream := true;
     stream_options :=
       if Js.nullish (includeStreamOptions (options this)) true
       then Some {| include_usage := true |} else None;
     max_tokens := None |}.

(** The body of the loop; the handler keeps no variable across
    iterations. *)
Definition on_chunk (_ : unit) (chunk : ChatCompletionChunk)
    : unit * ApiStream :=
  let delta := delta <$> head (choices chunk) in
  let text :=
    match delta ≫= content with
    | Some c => if Js.truthy_str c then [TextEvent c] else []
    | None => []
    end in
  let usage :=
    match usage chunk with
    | Some u =>
        [UsageEvent (Js.or_num (prompt_tokens u) 0)
                    (Js.or_num (completion_tokens u) 0) None None]
    | None => []
    end in
  (tt, text ++ usage).

(** What one chunk yields: its text, if any, then its usage, if any. *)
Definition chunk_events (c : ChatCompletionChunk) : ApiStream :=
  snd (on_chunk tt c).

Definition decode (stream : list ChatCompletionChunk) : ApiStream :=
  snd (Loop.for_await on_chunk tt stream).

(** [stream = await this.client.chat.completions.create(requestOptions)]. *)
Definition open_stream (this : OpenAiHandler) (systemPrompt : string)
    (msgs : list MessageParam) : list ChatCompletionChunk :=
  client this (requestOptions this systemPrompt msgs).

Definition createMessage (this : OpenAiHandler) (systemPrompt : string)
    (msgs : list MessageParam) : ApiStream :=
  let tracedMethod :=
    traceableMethod (fun '(systemPrompt, msgs) =>
      let stream := open_stream this systemPrompt msgs in
      {| yields := decode stream; returned := tt |}) in
  yield_star (tracedMethod (systemPrompt, msgs)).
End Handler.

End OpenAi.

(** ** The Anthropic SDK's types, as far as the handlers touch them *)
Module Sdk.
Import Api.

(** *** Stream events ([RawPromptCachingBetaMessageStreamEvent]) *)
Record MessageUsage := {
  input_tokens : N;
  output_tokens : N;
  cache_creation_input_tokens : option N;
  cache_read_input_tokens : option N
}.

Inductive ContentBlock :=
| TextBlock (text : string)
| ToolUseBlock (id name : string).

Inductive BlockDelta :=
| TextDelta (text : string)
| InputJsonDelta (partial_json : string).

Inductive StreamEvent :=
| message_start (usage : MessageUsage)
| message_delta (usage_output_tokens : N)
| message_stop
| content_block_start (index : N) (content_block : ContentBlock)
| content_block_delta (index : N) (delta : BlockDelta)
| content_block_stop (index : N)
(** any other [type]: no [case] of the handlers' [switch] matches it *)
| other_event (type : string).

(** *** Requests *)
Inductive CacheControl := ephemeral.

(** A content part of the request with its optional [cache_control]. *)
Record BlockParam := {
  block : ContentBlockParam;
  cache_control : option CacheControl
}.

Inductive Content :=
| Text (s : string)
| Blocks (parts : list BlockParam).

Record WireMessage := { role : Role; content : Content }.

Record SystemBlock := { sys_text : string; sys_cache_control : option CacheControl }.

Inductive SystemParam :=
| SystemText (s : string)
| SystemBlocks (parts : list SystemBlock).

Record MessageCreateParams := {
  model : string;
  max_tokens : Z;
  temperature : Z;
  system : SystemParam;
  messages : list WireMessage;
  stream : bool
}.

Record RequestOptions := { headers : list (string * string) }.

(** The two entry points of the client the handlers call. *)
Inductive Endpoint := beta_promptCaching_messages_create | messages_create.

Definition Client : Type :=
  Endpoint -> MessageCreateParams -> option RequestOptions -> list StreamEvent.

(** A message the handler passes on as it is: no part carries a
    [cache_control]. *)
Definition as_is_part (b : ContentBlockParam) : BlockParam :=
  {| block := b; cache_control := None |}.

Definition as_is (m : MessageParam) : WireMessage :=
  {| role := Api.role m;
     content := match Api.content m with
                | ContentString s => Text s
                | ContentBlocks parts => Blocks (as_is_part <$> parts)
                end |}.

(** [arr.map((x, i) => f(x, i))]. *)
Definition map_indexed {A B} (f : A -> nat -> B) (arr : list A) : list B :=
  imap (fun i x => f x i) arr.

(** [arr.reduce((acc, x, i) => f(acc, x, i), init)]. *)
Definition reduce_indexed {A B} (f : B -> A -> nat -> B) (arr : list A)
    (init : B) : B :=
  fold_left (fun acc '(i, x) => f acc x i) (imap (fun i x => (i, x)) arr) init.

End Sdk.

(** ** [AnthropicHandler], first variant ([anthropic.ts], lines 1-193) *)
Module Anthropic.
Import Api Sdk.

(** [interface Usage] and [createUsage]. *)
Record Usage := {
  inputTokens : N;
  outputTokens : N;
  cacheWriteTokens : option N;
  cacheReadTokens : option N
}.

Definition createUsage : Usage :=
  {| inputTokens := 0; outputTokens := 0;
     cacheWriteTokens := None; cacheReadTokens := None |}.

Record ModelDescriptor := { id : string; info : ModelInfo }.

Record AnthropicHandler := { options : ApiHandlerOptions; client : Client }.

(** The variables the loop over the stream keeps. *)
Record Vars := {
  usage : Usage;
  accumulatedText : string;
  currentBlockText : string;
  isFirstBlock : bool
}.

(** The [case] labels of the [switch (modelId)] that take the prompt
    caching branch. *)
Definition cache_models : list string :=
  [ "claude-3-5-sonnet-20241022"; "claude-3-5-haiku-20241022";
    "claude-3-opus-20240229"; "claude-3-haiku-20240307" ].

Definition userMsgIndices (msgs : list MessageParam) : list nat :=
  reduce_indexed
    (fun acc msg index => if is_user msg then acc ++ [index] else acc)
    msgs [].

Definition lastUserMsgIndex (msgs : list MessageParam) : Z :=
  let idx := userMsgIndices msgs in
  Js.nullish (Z.of_nat <$> Js.index idx (Z.of_nat (length idx) - 1)) (-1)%Z.

Definition secondLastMsgUserIndex (msgs : list MessageParam) : Z :=
  let idx := userMsgIndices msgs in
  Js.nullish (Z.of_nat <$> Js.index idx (Z.of_nat (length idx) - 2)) (-1)%Z.

(** The callback of [messages.map] in the prompt caching branch. *)
Definition mark_message (last second : Z) (message : MessageParam)
    (index : nat) : WireMessage :=
  if (Z.of_nat index =? last)%Z || (Z.of_nat index =? second)%Z then
    {| role := Api.role message;
       content :=
         match Api.content message with
         | ContentString s =>
             Blocks [ {| block := TextBlockParam s;
                         cache_control := Some ephemeral |} ]
         | ContentBlocks parts =>
             Blocks (map_indexed
               (fun content contentIndex =>
                  if (Z.of_nat contentIndex =? Z.of_nat (length parts) - 1)%Z
                  then {| block := content; cache_control := Some ephemeral |}
                  else as_is_part content)
               parts)
         end |}
  else as_is message.

Definition cached_messages (msgs : list MessageParam) : list WireMessage :=
  map_indexed
    (mark_message (lastUserMsgIndex msgs) (secondLastMsgUserIndex msgs)) msgs.

(** One iteration of the loop over the stream. *)
Definition on_chunk (v : Vars) (chunk : StreamEvent) : Vars * ApiStream :=
  match chunk with
  | message_start u =>
      ({| usage :=
            {| inputTokens := Js.or_num (input_tokens u) 0;
               outputTokens := Js.or_num (output_tokens u) 0;
               cacheWriteTokens :=
                 Js.or_undefined (cache_creation_input_tokens u);
               cacheReadTokens :=
                 Js.or_undefined (cache_read_input_tokens u) |};
          accumulatedText := accumulatedText v;
          currentBlockText := currentBlockText v;
          isFirstBlock := isFirstBlock v |}, [])
  | message_delta out =>
      if (out =? 0)%N then (v, [])
      else
        ({| usage :=
              {| inputTokens := inputTokens (usage v);
                 outputTokens := (outputTokens (usage v) + out)%N;
                 cacheWriteTokens := cacheWriteTokens (usage v);
                 cacheReadTokens := cacheReadTokens (usage v) |};
            accumulatedText := accumulatedText v;
            currentBlockText := currentBlockText v;
            isFirstBlock := isFirstBlock v |}, [])
  | message_stop =>
      (v, if Js.truthy_str (accumulatedText v)
          then [TextEvent (accumulatedText v)] else [])
  | content_block_start _ (TextBlock text) =>
      ({| usage := usage v;
          accumulatedText :=
            if negb (isFirstBlock v) then accumulatedText v +:+ Js.LF
            else accumulatedText v;
          currentBlockText := Js.or_str text EmptyString;
          isFirstBlock := false |}, [])
  | content_block_start _ (ToolUseBlock _ _) => (v, [])
  | content_block_delta _ (TextDelta text) =>
      ({| usage := usage v;
          accumulatedText := accumulatedText v;
          currentBlockText := currentBlockText v +:+ text;
          isFirstBlock := isFirstBlock v |}, [])
  | content_block_delta _ (InputJsonDelta _) => (v, [])
  | content_block_stop _ =>
      ({| usage := usage v;
          accumulatedText := accumulatedText v +:+ currentBlockText v;
          currentBlockText := EmptyString;
          isFirstBlock := isFirstBlock v |}, [])
  | other_event _ => (v, [])
  end.

Definition initial : Vars :=
  {| usage := createUsage; accumulatedText := EmptyString; currentBlockText := EmptyString;
     isFirstBlock := true |}.

(** The [yield] that follows the loop. *)
Definition final_usage (u : Usage) : ApiStreamChunk :=
  UsageEvent (inputTokens u) (outputTokens u)
             (Js.or_undefined (cacheWriteTokens u))
             (Js.or_undefined (cacheReadTokens u)).

(** The loop variables when the stream has ended. *)
Definition terminal (stream : list StreamEvent) : Vars :=
  fst (Loop.for_await on_chunk initial stream).

(** Everything after the request: the loop, then the final [yield]. *)
Definition decode (stream : list StreamEvent) : ApiStream :=
  let '(v, out) := Loop.for_await on_chunk initial stream in
  out ++ [final_usage (usage v)].

Section Handler.
(** Declared in [shared/api], which is not among the sources: an object
    literal whose own properties map model ids to [ModelInfo], and one of its
    keys, the default id (its type [AnthropicModelId] makes it a key of the
    table). [modelId in anthropicModels] holds of the own keys and of the
    names the object inherits. [!!!] reads [anthropicModels[id]] as far as
    the handlers read it: the entry of an own key, and for a name that is
    only inherited a built-in of [Object.prototype], whose [maxTokens] is
    [undefined]. *)
Variable anthropicModels : gmap string ModelInfo.
Variable anthropicDefaultModelId : string.
Definition getModel (this : AnthropicHandler) : ModelDescriptor :=
  match apiModelId (options this) with
  | Some modelId =>
      if Js.truthy_str modelId && Js.has_property anthropicModels modelId
      then {| id := modelId; info := anthropicModels !!! modelId |}
      else {| id := anthropicDefaultModelId;
              info := anthropicModels !!! anthropicDefaultModelId |}
  | None => {| id := anthropicDefaultModelId;
               info := anthropicModels !!! anthropicDefaultModelId |}
  end.

(** The request each branch of [switch (modelId)] sends. *)
Definition request (this : AnthropicHandler) (systemPrompt : string)
    (msgs : list MessageParam)
    : Endpoint * MessageCreateParams * option RequestOptions :=
  let modelId := id (getModel this) in
  if bool_decide (modelId ∈ cache_models) then
    (beta_promptCaching_messages_create,
     {| model := modelId;
        max_tokens := Js.or_int (maxTokens (info (getModel this))) 8192;
        temperature := 0;
        system := SystemText systemPrompt;
        messages := cached_messages msgs;
        stream := true |},
     Some {| headers := [("anthropic-beta", "prompt-caching-2024-07-31")] |})
  else
    (messages_create,
     {| model := modelId;
        max_tokens := Js.or_int (maxTokens (info (getModel this))) 8192;
        temperature := 0;
        system := SystemText systemPrompt;
        messages := as_is <$> msgs;
        stream := true |},
     None).

(** [stream = await this.client. ... .create(...)]. *)
Definition open_stream (this : AnthropicHandler) (systemPrompt : string)
    (msgs : list MessageParam) : list StreamEvent :=
  let '(endpoint, params, opts) := request this systemPrompt msgs in
  client this endpoint params opts.

Definition createMessage (this : AnthropicHandler) (systemPrompt : string)
    (msgs : list MessageParam) : ApiStream :=
  let tracedMethod :=
    traceableMethod (fun '(systemPrompt, msgs) =>
      let stream := open_stream this systemPrompt msgs in
      {| yields := decode stream; returned := tt |}) in
  yield_star (tracedMethod (systemPrompt, msgs)).
End Handler.

End Anthropic.

(** ** [AnthropicHandler], second variant ([anthropic.ts], lines 194-388) *)
Module AnthropicDup.
Import Api Sdk.

(** The shape of [usageData]. *)
Record Usage := {
  inputTokens : N;
  outputTokens : N;
  cacheWriteTokens : option N;
  cacheReadTokens : option N
}.

Record ModelDescriptor := { id : string; info : ModelInfo }.

Record AnthropicHandler := { options : ApiHandlerOptions; client : Client }.

(** The variables the loop over the stream keeps. *)
Record Vars := { fullText : string; usageData : Usage }.

(** What the traced generator returns. *)
Record Completion := {
  in_systemPrompt : string;
  in_messages : list MessageParam;
  in_model : string;
  out_content : string;
  out_usage : Usage
}.

Definition cache_models : list string :=
  [ "claude-3-5-sonnet-20241022"; "claude-3-5-haiku-20241022";
    "claude-3-opus-20240229"; "claude-3-haiku-20240307" ].

Definition userMsgIndices (msgs : list MessageParam) : list nat :=
  reduce_indexed
    (fun acc msg index => if is_user msg then acc ++ [index] else acc)
    msgs [].

Definition lastUserMsgIndex (msgs : list MessageParam) : Z :=
  let idx := userMsgIndices msgs in
  Js.nullish (Z.of_nat <$> Js.index idx (Z.of_nat (length idx) - 1)) (-1)%Z.

Definition secondLastMsgUserIndex (msgs : list MessageParam) : Z :=
  let idx := userMsgIndices msgs in
  Js.nullish (Z.of_nat <$> Js.index idx (Z.of_nat (length idx) - 2)) (-1)%Z.

Definition mark_message (last second : Z) (message : MessageParam)
    (index : nat) : WireMessage :=
  if (Z.of_nat index =? last)%Z || (Z.of_nat index =? second)%Z then
    {| role := Api.role message;
       content :=
         match Api.content message with
         | ContentString s =>
             Blocks [ {| block := TextBlockParam s;
                         cache_control := Some ephemeral |} ]
         | ContentBlocks parts =>
             Blocks (map_indexed
               (fun content contentIndex =>
                  if (Z.of_nat contentIndex =? Z.of_nat (length parts) - 1)%Z
                  then {| block := content; cache_control := Some ephemeral |}
                  else as_is_part content)
               parts)
         end |}
  else as_is message.

Definition cached_messages (msgs : list MessageParam) : list WireMessage :=
  map_indexed
    (mark_message (lastUserMsgIndex msgs) (secondLastMsgUserIndex msgs)) msgs.

(** The second argument of the prompt caching call: the inner
    [switch (modelId)]. *)
Definition request_options (modelId : string) : option RequestOptions :=
  if bool_decide (modelId ∈ cache_models)
  then Some {| headers := [("anthropic-beta", "prompt-caching-2024-07-31")] |}
  else None.

(** One iteration of the loop over the stream. *)
Definition on_chunk (v : Vars) (chunk : StreamEvent) : Vars * ApiStream :=
  match chunk with
  | message_start msgUsage =>
      let usageData :=
        {| inputTokens := Js.or_num (input_tokens msgUsage) 0;
           outputTokens := Js.or_num (output_tokens msgUsage) 0;
           cacheWriteTokens :=
             Js.or_undefined (cache_creation_input_tokens msgUsage);
           cacheReadTokens :=
             Js.or_undefined (cache_read_input_tokens msgUsage) |} in
      ({| fullText := fullText v; usageData := usageData |},
       [UsageEvent (inputTokens usageData) (outputTokens usageData)
                   (cacheWriteTokens usageData) (cacheReadTokens usageData)])
  | message_delta out =>
      ({| fullText := fullText v;
          usageData :=
            {| inputTokens := inputTokens (usageData v);
               outputTokens := Js.or_num out 0;
               cacheWriteTokens := cacheWriteTokens (usageData v);
               cacheReadTokens := cacheReadTokens (usageData v) |} |}, [])
  | message_stop => (v, [])
  | content_block_start index (TextBlock text) =>
      let '(fullText1, sep) :=
        if (0 <? index)%N
        then (fullText v +:+ Js.LF, [TextEvent Js.LF])
        else (fullText v, []) in
      ({| fullText := fullText1 +:+ text; usageData := usageData v |},
       sep ++ [TextEvent text])
  | content_block_start _ (ToolUseBlock _ _) => (v, [])
  | content_block_delta _ (TextDelta text) =>
      ({| fullText := fullText v +:+ text; usageData := usageData v |},
       [TextEvent text])
  | content_block_delta _ (InputJsonDelta _) => (v, [])
  | content_block_stop _ => (v, [])
  | other_event _ => (v, [])
  end.

Definition initial : Vars :=
  {| fullText := EmptyString;
     usageData := {| inputTokens := 0; outputTokens := 0;
                     cacheWriteTokens := None; cacheReadTokens := None |} |}.

(** What one chunk yields; no iteration reads the loop variables to decide
    what to yield. *)
Definition chunk_events (chunk : StreamEvent) : ApiStream :=
  snd (on_chunk initial chunk).

(** Everything after the request: the loop. Nothing is yielded after it;
    the terminal [usageData] is part of the returned value. *)
Definition decode (stream : list StreamEvent) : ApiStream :=
  snd (Loop.for_await on_chunk initial stream).

(** The loop variables when the stream has ended. *)
Definition terminal (stream : list StreamEvent) : Vars :=
  fst (Loop.for_await on_chunk initial stream).

Section Handler.
(** Declared in [shared/api], which is not among the sources; read as in
    the first variant. *)
Variable anthropicModels : gmap string ModelInfo.
Variable anthropicDefaultModelId : string.

Definition getModel (this : AnthropicHandler) : ModelDescriptor :=
  match apiModelId (options this) with
  | Some modelId =>
      if Js.truthy_str modelId && Js.has_property anthropicModels modelId
      then {| id := modelId; info := anthropicModels !!! modelId |}
      else {| id := anthropicDefaultModelId;
              info := anthropicModels !!! anthropicDefaultModelId |}
  | None => {| id := anthropicDefaultModelId;
               info := anthropicModels !!! anthropicDefaultModelId |}
  end.

Definition request (this : AnthropicHandler) (systemPrompt : string)
    (msgs : list MessageParam)
    : Endpoint * MessageCreateParams * option RequestOptions :=
  let modelId := id (getModel this) in
  if bool_decide (modelId ∈ cache_models) then
    (beta_promptCaching_messages_create,
     {| model := modelId;
        max_tokens := Js.or_int (maxTokens (info (getModel this))) 8192;
        temperature := 0;
        system := SystemBlocks
          [ {| sys_text := systemPrompt;
               sys_cache_control := Some ephemeral |} ];
        messages := cached_messages msgs;
        stream := true |},
     request_options modelId)
  else
    (messages_create,
     {| model := modelId;
        max_tokens := Js.or_int (maxTokens (info (getModel this))) 8192;
        temperature := 0;
        system := SystemBlocks
          [ {| sys_text := systemPrompt; sys_cache_control := None |} ];
        messages := as_is <$> msgs;
        stream := true |},
     None).

(** [stream = await this.client. ... .create(...)]. *)
Definition open_stream (this : AnthropicHandler) (systemPrompt : string)
    (msgs : list MessageParam) : list StreamEvent :=
  let '(endpoint, params, opts) := request this systemPrompt msgs in
  client this endpoint params opts.

(** The traced generator: what it yields and what it returns. *)
Definition traced_body (this : AnthropicHandler)
    (inputs : string * list MessageParam) : Generator Completion :=
  let '(systemPrompt, msgs) := inputs in
  let modelId := id (getModel this) in
  let stream := open_stream this systemPrompt msgs in
  let '(v, out) := Loop.for_await on_chunk initial stream in
  {| yields := out;
     returned := {| in_systemPrompt := systemPrompt;
                    in_messages := msgs;
                    in_model := modelId;
                    out_content := fullText v;
                    out_usage := usageData v |} |}.

Definition createMessage (this : AnthropicHandler) (systemPrompt : string)
    (msgs : list MessageParam) : ApiStream :=
  let tracedMethod := traceableMethod (traced_body this) in
  yield_star (tracedMethod (systemPrompt, msgs)).
End Handler.

End AnthropicDup.

(** ** Vocabulary of the properties *)
Module Props.
Import Api Sdk.

(** The events that follow the last [TextEvent] (all of them when there is
    no [TextEvent]). *)
Fixpoint after_last_text (evs : ApiStream) : ApiStream :=
  match evs with
  | [] => []
  | _ :: rest => if existsb is_text evs then after_last_text rest else evs
  end.

Definition usage_count (evs : ApiStream) : nat :=
  length (List.filter is_usage evs).

(** How many [UsageEvent]s are observed at or after the last [TextEvent]. *)
Definition usage_at_end (evs : ApiStream) : nat :=
  usage_count (after_last_text evs).

(** Terminal usage is observed exactly once. *)
Definition terminal_usage_once (evs : ApiStream) : Prop :=
  usage_at_end evs = 1.

(** The text a consumer has received once it has read all the events. *)
Fixpoint received_text (evs : ApiStream) : string :=
  match evs with
  | [] => EmptyString
  | TextEvent t :: rest => t +:+ received_text rest
  | UsageEvent _ _ _ _ :: rest => received_text rest
  end.

(** *** OpenAI chunks *)
Definition has_text (c : OpenAi.ChatCompletionChunk) : bool :=
  match OpenAi.choices c with
  | ch :: _ =>
      match OpenAi.content (OpenAi.delta ch) with
      | Some s => Js.truthy_str s
      | None => false
      end
  | [] => false
  end.

Definition has_usage (c : OpenAi.ChatCompletionChunk) : bool :=
  match OpenAi.usage c with Some _ => true | None => false end.

(** The chunks of the scenarios: [{delta: s}] and [{usage: {in, out}}]. *)
Definition delta_chunk (s : string) : OpenAi.ChatCompletionChunk :=
  {| OpenAi.choices := [ {| OpenAi.delta := {| OpenAi.content := Some s |} |} ];
     OpenAi.usage := None |}.

Definition usage_chunk (i o : N) : OpenAi.ChatCompletionChunk :=
  {| OpenAi.choices := [];
     OpenAi.usage := Some {| OpenAi.prompt_tokens := i;
                             OpenAi.completion_tokens := o |} |}.

Definition start_usage (i o : N) : MessageUsage :=
  {| input_tokens := i; output_tokens := o;
     cache_creation_input_tokens := None;
     cache_read_input_tokens := None |}.

(** The chunks from the last one that carries text on (all of them when
    none does). *)
Fixpoint from_last_text_chunk (stream : list OpenAi.ChatCompletionChunk)
    : list OpenAi.ChatCompletionChunk :=
  match stream with
  | [] => []
  | c :: rest =>
      if existsb has_text rest then from_last_text_chunk rest else c :: rest
  end.

(** *** Cache token counts *)

(** A count the backend reports as 0 or does not report. *)
Definition zero_or_absent (n : option N) : bool :=
  match n with
  | Some v => (v =? 0)%N
  | None => true
  end.

(** What the interface shows of a reported count: nothing for a count
    that is 0 or was not reported, the count itself otherwise. *)
Definition visible (n : option N) : option N :=
  if zero_or_absent n then None else n.

(** No cache count of the event is the number 0. *)
Definition no_zero_cache (e : ApiStreamChunk) : Prop :=
  match e with
  | TextEvent _ => True
  | UsageEvent _ _ w r => w <> Some 0%N /\ r <> Some 0%N
  end.

Definition is_message_start (c : StreamEvent) : bool :=
  match c with message_start _ => true | _ => false end.

(** Options that set nothing. *)
Definition no_options : ApiHandlerOptions :=
  {| apiModelId := None; openAiModelId := None;
     includeStreamOptions := None |}.

(** A backend that answers every request with the same chunks. *)
Definition serving (stream : list StreamEvent) : Client :=
  fun _ _ _ => stream.

(** *** Cache directives in a request *)

(** Part [j] of message [i] of the request carries a cache directive. *)
Definition annotated (ms : list WireMessage) (i j : nat) : bool :=
  match ms !! i with
  | Some m =>
      match content m with
      | Blocks parts =>
          match parts !! j with
          | Some p => match cache_control p with
                      | Some ephemeral => true
                      | None => false
                      end
          | None => false
          end
      | Text _ => false
      end
  | None => false
  end.

(** How many user messages come after position [i]. *)
Definition users_after (msgs : list MessageParam) (i : nat) : nat :=
  length (List.filter is_user (drop (S i) msgs)).

(** [j] is the position of the last content part of [m]; a string body
    counts as a single part. *)
Definition last_part (m : MessageParam) (j : nat) : bool :=
  match Api.content m with
  | ContentString _ => (j =? 0)%nat
  | ContentBlocks parts => (S j =? length parts)%nat
  end.

(** The policy: the last part of the last user message and of the one
    before it. *)
Definition policy (msgs : list MessageParam) (i j : nat) : bool :=
  match msgs !! i with
  | Some m => is_user m && (users_after msgs i <? 2)%nat && last_part m j
  | None => false
  end.

(** The content parts of a message, a string body being one text part. *)
Definition parts_of (m : MessageParam) : list ContentBlockParam :=
  match Api.content m with
  | ContentString s => [TextBlockParam s]
  | ContentBlocks parts => parts
  end.

Definition wire_parts_of (m : WireMessage) : list ContentBlockParam :=
  match content m with
  | Text s => [TextBlockParam s]
  | Blocks parts => block <$> parts
  end.

(** *** Well-formed text streams of the block-structured backend *)

(** A text block as the backend streams it: the inline text of its start
    chunk and the texts of its delta chunks. *)
Record TextBlockChunks := { inline : string; deltas : list string }.

Definition block_text (b : TextBlockChunks) : string :=
  foldr (fun d acc => d +:+ acc) EmptyString (inline b :: deltas b).

Definition block_events (i : nat) (b : TextBlockChunks) : list StreamEvent :=
  content_block_start (N.of_nat i) (TextBlock (inline b))
    :: ((fun d => content_block_delta (N.of_nat i) (TextDelta d)) <$> deltas b)
    ++ [content_block_stop (N.of_nat i)].

(** The blocks, numbered from [i] on. *)
Fixpoint blocks_events (i : nat) (bs : list TextBlockChunks)
    : list StreamEvent :=
  match bs with
  | [] => []
  | b :: rest => block_events i b ++ blocks_events (S i) rest
  end.

(** A complete message: start, text blocks, the closing delta and stop. *)
Definition message_events (u : MessageUsage) (bs : list TextBlockChunks)
    (out : N) : list StreamEvent :=
  message_start u :: blocks_events 0 bs ++ [message_delta out; message_stop].

(** The text of the blocks, one line feed between two blocks. *)
Definition led_text (bs : list TextBlockChunks) : string :=
  foldr (fun b acc => Js.LF +:+ block_text b +:+ acc) EmptyString bs.

Definition joined_text (bs : list TextBlockChunks) : string :=
  match bs with
  | [] => EmptyString
  | b :: rest => block_text b +:+ led_text rest
  end.

End Props.

(** ** The constructor of [OpenAiHandler] ([openai.ts], lines 18-39) *)
Module Construct.
Import Api.

(** The fields of [ApiHandlerOptions] the constructor of [OpenAiHandler]
    reads. *)
Record ConnectionOptions := {
  openAiBaseUrl : option string;
  openAiApiKey : option string;
  azureApiVersion : option string
}.

(** [s || d] on a string that may be absent. *)
Definition or_default (s : option string) (d : string) : string :=
  match s with
  | Some v => if Js.truthy_str v then v else d
  | None => d
  end.

(** [s.endsWith(suffix)]. *)
Fixpoint endsWith (s suffix : string) : bool :=
  if String.eqb s suffix then true
  else match s with
       | EmptyString => false
       | String _ rest => endsWith rest suffix
       end.

(** [urlHost === "azure.com" || urlHost.endsWith(".azure.com")]. *)
Definition azure_host (urlHost : string) : bool :=
  String.eqb urlHost "azure.com" || endsWith urlHost ".azure.com".

Section OpenAiConstructor.
(** What the constructor calls and does not define; a call that throws is
    [None]: [initializeLangSmith] and [wrapOpenAIClient] of
    [langsmith/config], [new URL(s).host] of the platform and the two client
    constructors of the SDK. The default API version is a constant of
    [shared/api]. None of these is among the sources. *)
Variable Client : Type.
Variable initializeLangSmith : option unit.
Variable url_host : string -> option string.
Variable new_AzureOpenAI :
  option string -> option string -> string -> option Client.
Variable new_OpenAI : option string -> option string -> option Client.
Variable wrapOpenAIClient : Client -> option Client.
Variable azureOpenAiDefaultApiVersion : string.

(** [this.options.azureApiVersion || azureOpenAiDefaultApiVersion]. *)
Definition apiVersion (o : ConnectionOptions) : string :=
  or_default (azureApiVersion o) azureOpenAiDefaultApiVersion.

(** [this.client] once [new OpenAiHandler(options)] has returned; [None]
    when the constructor throws. *)
Definition new_OpenAiHandler (o : ConnectionOptions) : option Client :=
  match initializeLangSmith with
  | None => None
  | Some _ =>
      match url_host (Js.nullish (openAiBaseUrl o) EmptyString) with
      | None => None
      | Some urlHost =>
          if azure_host urlHost
          then new_AzureOpenAI (openAiBaseUrl o) (openAiApiKey o) (apiVersion o)
                 ≫= wrapOpenAIClient
          else new_OpenAI (openAiBaseUrl o) (openAiApiKey o)
                 ≫= wrapOpenAIClient
      end
  end.
End OpenAiConstructor.

End Construct.

(** ** Vocabulary of the further properties *)
Module Observe.
Import Api Sdk Props.

(** *** Events *)
Definition text_count (evs : ApiStream) : nat :=
  length (List.filter is_text evs).

(** No [TextEvent] with the empty text. *)
Definition nonempty_text (e : ApiStreamChunk) : Prop :=
  match e with
  | TextEvent t => t <> EmptyString
  | UsageEvent _ _ _ _ => True
  end.

(** *** OpenAI chunks *)

(** The [delta.content] of the first choice, nothing when there is none. *)
Definition first_content (c : OpenAi.ChatCompletionChunk) : string :=
  match OpenAi.choices c with
  | ch :: _ =>
      match OpenAi.content (OpenAi.delta ch) with
      | Some s => s
      | None => EmptyString
      end
  | [] => EmptyString
  end.

(** The text the backend sent, chunk after chunk. *)
Definition sent_text (stream : list OpenAi.ChatCompletionChunk) : string :=
  foldr (fun c acc => first_content c +:+ acc) EmptyString stream.

(** *** Anthropic chunks *)
Definition is_message_stop (c : StreamEvent) : bool :=
  match c with message_stop => true | _ => false end.

Definition is_message_delta (c : StreamEvent) : bool :=
  match c with message_delta _ => true | _ => false end.

(** Chunks no [case] of either loop acts on. *)
Definition ignorable (c : StreamEvent) : bool :=
  match c with
  | other_event _ => true
  | content_block_start _ (ToolUseBlock _ _) => true
  | content_block_delta _ (InputJsonDelta _) => true
  | _ => false
  end.

(** The usage of the [message_start] chunks of a stream, in order. *)
Definition starts (stream : list StreamEvent) : list MessageUsage :=
  flat_map (fun c => match c with message_start u => [u] | _ => [] end) stream.

(** What a [message_start] shows of its usage. *)
Definition snapshot (u : MessageUsage) : ApiStreamChunk :=
  UsageEvent (input_tokens u) (output_tokens u)
             (visible (cache_creation_input_tokens u))
             (visible (cache_read_input_tokens u)).

(** The sum of the output counts of the [message_delta] chunks. *)
Definition delta_sum (stream : list StreamEvent) : N :=
  foldr (fun c acc => match c with message_delta n => (n + acc)%N | _ => acc end)
        0%N stream.

(** The output count of the last [message_delta] chunk, or [d]. *)
Definition last_delta (d : N) (stream : list StreamEvent) : N :=
  fold_left (fun acc c => match c with message_delta n => n | _ => acc end)
            stream d.

(** What the second variant yields for block [i] of a message. *)
Definition block_pieces (i : nat) (b : TextBlockChunks) : ApiStream :=
  (if (i =? 0)%nat then [] else [TextEvent Js.LF])
    ++ TextEvent (inline b) :: (TextEvent <$> deltas b).

Fixpoint blocks_pieces (i : nat) (bs : list TextBlockChunks) : ApiStream :=
  match bs with
  | [] => []
  | b :: rest => block_pieces i b ++ blocks_pieces (S i) rest
  end.

(** *** Requests *)

(** How many parts of a message carry a cache directive. *)
Definition directives (m : WireMessage) : nat :=
  match content m with
  | Text _ => 0
  | Blocks parts =>
      length (List.filter
                (fun p => match cache_control p with
                          | Some _ => true
                          | None => false
                          end) parts)
  end.

Definition total_directives (ms : list WireMessage) : nat :=
  foldr (fun m acc => directives m + acc) 0 ms.

Definition user_count (msgs : list MessageParam) : nat :=
  length (List.filter is_user msgs).

(** A message with at least one content part; a string body is one part. *)
Definition has_parts (m : MessageParam) : bool :=
  match Api.content m with
  | ContentString _ => true
  | ContentBlocks parts => negb (length parts =? 0)%nat
  end.

(** Counting from the end of the conversation: the user messages with at
    least one part that have fewer than two user messages after them. *)
Fixpoint tail_marks (msgs : list MessageParam) : nat :=
  match msgs with
  | [] => 0
  | m :: rest =>
      (if is_user m && (user_count rest <? 2)%nat && has_parts m then 1 else 0)
        + tail_marks rest
  end.

Definition beta_header : RequestOptions :=
  {| headers := [("anthropic-beta", "prompt-caching-2024-07-31")] |}.

End Observe.

(** * Properties *)

Import Api Sdk Props.

(** ** The loop *)
Section LoopFacts.
Context {S C : Type} (body : S -> C -> S * ApiStream).

Lemma for_await_cons v c rest :
  Loop.for_await body v (c :: rest) =
    ((Loop.for_await body (body v c).1 rest).1,
     (body v c).2 ++ (Loop.for_await body (body v c).1 rest).2).
Proof.
  simpl. destruct (body v c) as [v1 out]. simpl.
  by destruct (Loop.for_await body v1 rest).
Qed.

Lemma for_await_app v s1 s2 :
  Loop.for_await body v (s1 ++ s2) =
    ((Loop.for_await body (Loop.for_await body v s1).1 s2).1,
     (Loop.for_await body v s1).2
       ++ (Loop.for_await body (Loop.for_await body v s1).1 s2).2).
Proof.
  revert v. induction s1 as [|c s1 IH]; intros v.
  - simpl. by destruct (Loop.for_await body v s2).
  - rewrite <- app_comm_cons, !for_await_cons, IH. simpl.
    by rewrite app_assoc.
Qed.

(** A loop whose iterations ignore the loop variables yields the
    concatenation of what each chunk yields. *)
Lemma for_await_stateless (out : C -> ApiStream) v stream :
  (forall v c, (body v c).2 = out c) ->
  (Loop.for_await body v stream).2 = flat_map out stream.
Proof.
  intros Hout. revert v. induction stream as [|c rest IH]; intros v.
  - done.
  - rewrite for_await_cons. simpl. by rewrite Hout, IH.
Qed.
End LoopFacts.

(** ** Event sequences *)
Lemma usage_count_app (a b : ApiStream) :
  usage_count (a ++ b) = usage_count a + usage_count b.
Proof. unfold usage_count. by rewrite List.filter_app, length_app. Qed.

Lemma after_last_text_cons e (l : ApiStream) :
  after_last_text (e :: l)
    = if is_text e || existsb is_text l then after_last_text l else e :: l.
Proof. done. Qed.

Lemma after_last_text_with_text (a b : ApiStream) :
  existsb is_text b = true -> after_last_text (a ++ b) = after_last_text b.
Proof.
  intros Hb. induction a as [|e a IH]; [done|].
  rewrite <- app_comm_cons, after_last_text_cons, existsb_app, Hb.
  by rewrite !orb_true_r.
Qed.

Lemma after_last_text_no_text (a b : ApiStream) :
  existsb is_text b = false ->
  after_last_text (a ++ b) = after_last_text a ++ b.
Proof.
  intros Hb. induction a as [|e a IH].
  - simpl. destruct b as [|e b]; [done|].
    rewrite after_last_text_cons. simpl in Hb. by rewrite Hb.
  - rewrite <- app_comm_cons, !after_last_text_cons, existsb_app, Hb.
    rewrite orb_false_r.
    by destruct (is_text e || existsb is_text a).
Qed.

Lemma after_last_text_all_text (a : ApiStream) :
  forallb is_text a = true -> after_last_text a = [].
Proof.
  induction a as [|e a IH]; [done|]. intros H.
  apply andb_true_iff in H as [He Ha].
  rewrite after_last_text_cons, He. simpl. by apply IH.
Qed.

Lemma usage_count_all_text (a : ApiStream) :
  forallb is_text a = true -> usage_count a = 0.
Proof.
  induction a as [|[t|i o w r] a IH]; simpl; intros H; try done.
  by apply IH.
Qed.

(** ** The OpenAI decoder *)
Section OpenAiFacts.
Import OpenAi.

Lemma openai_decode_flat stream : decode stream = flat_map OpenAi.chunk_events stream.
Proof.
  unfold decode. apply for_await_stateless. by intros [] c.
Qed.

Lemma openai_chunk_text c :
  existsb is_text (OpenAi.chunk_events c) = has_text c.
Proof.
  unfold chunk_events, on_chunk, has_text. simpl.
  destruct (choices c) as [|ch ?]; simpl.
  - by destruct (usage c).
  - destruct (content (delta ch)) as [s|]; simpl.
    + destruct (Js.truthy_str s); simpl; by destruct (usage c).
    + by destruct (usage c).
Qed.

Lemma openai_chunk_usage_at_end c :
  usage_at_end (OpenAi.chunk_events c) = if has_usage c then 1 else 0.
Proof.
  unfold usage_at_end, chunk_events, on_chunk, has_text, has_usage. simpl.
  destruct (choices c) as [|ch ?]; simpl.
  - by destruct (usage c).
  - destruct (content (delta ch)) as [s|]; simpl.
    + destruct (Js.truthy_str s); simpl; by destruct (usage c).
    + by destruct (usage c).
Qed.

Lemma openai_chunk_usage_count c :
  usage_count (chunk_events c) = if has_usage c then 1 else 0.
Proof.
  unfold chunk_events, on_chunk, has_usage. simpl.
  rewrite usage_count_app.
  destruct (delta <$> head (choices c)) as [d|]; simpl.
  - destruct (content d) as [s|]; [destruct (Js.truthy_str s)|];
      by destruct (usage c).
  - by destruct (usage c).
Qed.

Lemma openai_decode_text stream :
  existsb is_text (decode stream) = existsb has_text stream.
Proof.
  rewrite openai_decode_flat.
  induction stream as [|c rest IH]; [done|]. simpl.
  by rewrite existsb_app, openai_chunk_text, IH.
Qed.

Lemma openai_usage_count stream :
  usage_count (decode stream) = length (List.filter has_usage stream).
Proof.
  rewrite openai_decode_flat.
  induction stream as [|c rest IH]; [done|]. simpl.
  rewrite usage_count_app, openai_chunk_usage_count, IH.
  by destruct (has_usage c).
Qed.

Lemma openai_usage_at_end stream :
  usage_at_end (decode stream)
    = length (List.filter has_usage (from_last_text_chunk stream)).
Proof.
  induction stream as [|c rest IH]; [done|].
  unfold usage_at_end in *.
  rewrite openai_decode_flat. simpl. rewrite <- openai_decode_flat.
  destruct (existsb has_text rest) eqn:Hrest.
  - rewrite after_last_text_with_text; [done|].
    by rewrite openai_decode_text.
  - rewrite after_last_text_no_text by by rewrite openai_decode_text.
    rewrite usage_count_app, openai_usage_count.
    fold (usage_at_end (OpenAi.chunk_events c)).
    rewrite openai_chunk_usage_at_end. simpl.
    by destruct (has_usage c).
Qed.
End OpenAiFacts.

(** ** The first Anthropic variant's decoder *)
Section AnthropicFacts.
Import Anthropic.

(** The loop yields text only. *)
Lemma anthropic_chunk_text v c : forallb is_text (on_chunk v c).2 = true.
Proof.
  destruct c as [u|n| |i [t|? ?]|i [t|?]|i|?]; simpl; try done.
  - by destruct (n =? 0)%N.
  - by destruct (Js.truthy_str (accumulatedText v)).
Qed.

Lemma anthropic_loop_text v stream :
  forallb is_text (Loop.for_await on_chunk v stream).2 = true.
Proof.
  revert v. induction stream as [|c rest IH]; intros v; [done|].
  rewrite for_await_cons. simpl.
  by rewrite forallb_app, anthropic_chunk_text, IH.
Qed.

Lemma anthropic_decode_eq stream :
  decode stream
    = (Loop.for_await on_chunk initial stream).2
        ++ [final_usage (usage (terminal stream))].
Proof.
  unfold decode, terminal.
  by destruct (Loop.for_await on_chunk initial stream).
Qed.

Lemma anthropic_createMessage_decode tbl dflt this sys msgs :
  createMessage tbl dflt this sys msgs
    = decode (open_stream tbl dflt this sys msgs).
Proof. done. Qed.
End AnthropicFacts.

(** ** The second Anthropic variant's decoder *)
Section AnthropicDupFacts.
Import AnthropicDup.

Lemma dup_createMessage_decode tbl dflt this sys msgs :
  createMessage tbl dflt this sys msgs
    = decode (open_stream tbl dflt this sys msgs).
Proof.
  unfold createMessage, traceableMethod, yield_star, traced_body, decode.
  by destruct (Loop.for_await _ _ _).
Qed.
End AnthropicDupFacts.

Lemma openai_createMessage_decode conv this sys msgs :
  OpenAi.createMessage conv this sys msgs
    = OpenAi.decode (OpenAi.open_stream conv this sys msgs).
Proof. done. Qed.

(** ** Terminal usage (C1) *)

(** C1, as stated, fails: the OpenAI handler yields a [UsageEvent] only for a
    chunk that carries [usage], and the second Anthropic variant yields its
    [UsageEvent] at [message_start] and none when the stream ends. On a stream
    that ends with text, no [UsageEvent] is at or after the last
    [TextEvent]. *)
Lemma C1_counterexample :
  (OpenAi.decode [delta_chunk "Hel"; delta_chunk "lo"]
     = [TextEvent "Hel"; TextEvent "lo"]
   /\ ~ terminal_usage_once (OpenAi.decode [delta_chunk "Hel"; delta_chunk "lo"]))
  /\ (AnthropicDup.decode
        [message_start (start_usage 5 0);
         content_block_start 0 (TextBlock "A"); content_block_stop 0;
         message_delta 3; message_stop]
      = [UsageEvent 5 0 None None; TextEvent "A"]
      /\ ~ terminal_usage_once
           (AnthropicDup.decode
              [message_start (start_usage 5 0);
               content_block_start 0 (TextBlock "A"); content_block_stop 0;
               message_delta 3; message_stop])).
Proof. repeat split; try reflexivity; vm_compute; discriminate. Qed.

(** C1, amended: for every chunk sequence the first Anthropic variant yields
    text events only while it reads the stream and then one [UsageEvent],
    built from the terminal usage state; it is the only [UsageEvent] and the
    last event, hence at or after the last [TextEvent]. The OpenAI handler
    yields one [UsageEvent] per chunk that carries [usage] and nothing when
    the stream ends: the number of [UsageEvent]s at or after the last
    [TextEvent] is the number of chunks carrying [usage] from the last chunk
    with text on. In both handlers [createMessage] yields what the decoder
    makes of the stream the client opened. *)
Theorem C1_terminal_usage :
  (forall stream,
     exists texts,
       Anthropic.decode stream
         = texts ++ [Anthropic.final_usage
                       (Anthropic.usage (Anthropic.terminal stream))]
       /\ forallb is_text texts = true
       /\ usage_count (Anthropic.decode stream) = 1
       /\ terminal_usage_once (Anthropic.decode stream))
  /\ (forall stream,
        usage_count (OpenAi.decode stream)
          = length (List.filter has_usage stream)
        /\ usage_at_end (OpenAi.decode stream)
           = length (List.filter has_usage (from_last_text_chunk stream)))
  /\ (forall tbl dflt this sys msgs,
        Anthropic.createMessage tbl dflt this sys msgs
          = Anthropic.decode (Anthropic.open_stream tbl dflt this sys msgs))
  /\ (forall conv this sys msgs,
        OpenAi.createMessage conv this sys msgs
          = OpenAi.decode (OpenAi.open_stream conv this sys msgs)).
Proof.
  split; [|split; [|split]];
    [| |apply anthropic_createMessage_decode|apply openai_createMessage_decode].
  - intros stream.
    exists (Loop.for_await Anthropic.on_chunk Anthropic.initial stream).2.
    pose proof (anthropic_loop_text Anthropic.initial stream) as Htext.
    rewrite anthropic_decode_eq. repeat split; [done| |].
    + rewrite usage_count_app, usage_count_all_text by done. done.
    + unfold terminal_usage_once, usage_at_end.
      rewrite after_last_text_no_text by done.
      rewrite after_last_text_all_text by done. done.
  - intros stream. split.
    + apply openai_usage_count.
    + apply openai_usage_at_end.
Qed.

(** ** The OpenAI decoder (C6) *)

(** C6: a chunk whose first choice has a non-empty [delta.content] yields
    one [TextEvent], with exactly that text; a chunk that carries [usage]
    yields one [UsageEvent] with that chunk's own prompt and completion
    counts; a chunk yields nothing else; the events of a stream are the
    events of its chunks, in the order of the chunks, whatever came before;
    Scenario A decodes to [Text "Hel"; Text "lo"; Usage 10 2]; and
    [createMessage] yields what the decoder makes of the stream the client
    opened. *)
Theorem C6_openai_decode (c : OpenAi.ChatCompletionChunk) :
  (forall ch rest s,
     OpenAi.choices c = ch :: rest ->
     OpenAi.content (OpenAi.delta ch) = Some s -> s <> EmptyString ->
     List.filter is_text (OpenAi.chunk_events c) = [TextEvent s])
  /\ (has_text c = false -> List.filter is_text (OpenAi.chunk_events c) = [])
  /\ (forall u,
        OpenAi.usage c = Some u ->
        List.filter is_usage (OpenAi.chunk_events c)
          = [UsageEvent (OpenAi.prompt_tokens u) (OpenAi.completion_tokens u)
                        None None])
  /\ (OpenAi.usage c = None ->
      List.filter is_usage (OpenAi.chunk_events c) = [])
  /\ (forall before after,
        OpenAi.decode (before ++ c :: after)
          = OpenAi.decode before ++ OpenAi.chunk_events c ++ OpenAi.decode after)
  /\ OpenAi.decode [delta_chunk "Hel"; delta_chunk "lo"; usage_chunk 10 2]
     = [TextEvent "Hel"; TextEvent "lo"; UsageEvent 10 2 None None]
  /\ (forall conv this sys msgs,
        OpenAi.createMessage conv this sys msgs
          = OpenAi.decode (OpenAi.open_stream conv this sys msgs)).
Proof.
  assert (Hnum : forall n, Js.or_num n 0 = n).
  { intros n. unfold Js.or_num. destruct (N.eqb_spec n 0); congruence. }
  unfold OpenAi.chunk_events, OpenAi.on_chunk, has_text. simpl.
  repeat split.
  - intros ch rest s -> Hs Hne. simpl. rewrite Hs. simpl.
    unfold Js.truthy_str. destruct (String.eqb_spec s EmptyString); [done|]. simpl.
    by destruct (OpenAi.usage c).
  - destruct (OpenAi.choices c) as [|ch ?]; simpl.
    + intros _. by destruct (OpenAi.usage c).
    + destruct (OpenAi.content (OpenAi.delta ch)) as [s|]; simpl.
      * intros ->. by destruct (OpenAi.usage c).
      * intros _. by destruct (OpenAi.usage c).
  - intros u ->. rewrite !Hnum.
    destruct (OpenAi.delta <$> head (OpenAi.choices c)) as [d|]; simpl; [|done].
    destruct (OpenAi.content d) as [s|]; [|done].
    by destruct (Js.truthy_str s).
  - intros ->.
    destruct (OpenAi.delta <$> head (OpenAi.choices c)) as [d|]; simpl; [|done].
    destruct (OpenAi.content d) as [s|]; [|done].
    by destruct (Js.truthy_str s).
  - intros before after.
    rewrite !openai_decode_flat, flat_map_app. done.
Qed.

Lemma C6_witness :
  List.filter is_text (OpenAi.chunk_events (delta_chunk "Hel"))
    = [TextEvent "Hel"]
  /\ List.filter is_usage (OpenAi.chunk_events (usage_chunk 10 2))
     = [UsageEvent 10 2 None None].
Proof.
  split.
  - apply (proj1 (C6_openai_decode (delta_chunk "Hel"))
             {| OpenAi.delta := {| OpenAi.content := Some "Hel" |} |} [] "Hel");
      [reflexivity | reflexivity | discriminate].
  - apply (proj1 (proj2 (proj2 (C6_openai_decode (usage_chunk 10 2))))
             {| OpenAi.prompt_tokens := 10; OpenAi.completion_tokens := 2 |}).
    reflexivity.
Defined.

(** ** Strings *)
Lemma str_app_assoc (a b c : string) : (a +:+ b) +:+ c = a +:+ (b +:+ c).
Proof.
  induction a as [|x a IH]; [done|].
  change (String x ((a +:+ b) +:+ c) = String x (a +:+ (b +:+ c))).
  by f_equal.
Qed.

Lemma str_app_nil_r (a : string) : a +:+ EmptyString = a.
Proof.
  induction a as [|x a IH]; [done|].
  change (String x (a +:+ EmptyString) = String x a). by f_equal.
Qed.

Lemma or_str_empty (s : string) : Js.or_str s EmptyString = s.
Proof.
  unfold Js.or_str, Js.truthy_str. by destruct (String.eqb_spec s EmptyString).
Qed.

Lemma or_num_zero (n : N) : Js.or_num n 0 = n.
Proof. unfold Js.or_num. by destruct (N.eqb_spec n 0). Qed.

Lemma received_text_app (a b : ApiStream) :
  received_text (a ++ b) = received_text a +:+ received_text b.
Proof.
  induction a as [|[t|i o w r] a IH]; simpl; [done| |done].
  by rewrite IH, str_app_assoc.
Qed.

(** ** Complete messages made of text blocks *)
Section Messages.

(** *** First variant: the deltas of a block go to its buffer *)
Lemma anthropic_deltas v i (ds : list string) :
  Loop.for_await Anthropic.on_chunk v
    ((fun d => content_block_delta i (TextDelta d)) <$> ds)
  = ({| Anthropic.usage := Anthropic.usage v;
        Anthropic.accumulatedText := Anthropic.accumulatedText v;
        Anthropic.currentBlockText :=
          Anthropic.currentBlockText v +:+ foldr (fun d acc => d +:+ acc) EmptyString ds;
        Anthropic.isFirstBlock := Anthropic.isFirstBlock v |}, []).
Proof.
  revert v. induction ds as [|d ds IH]; intros v.
  - simpl. rewrite str_app_nil_r. by destruct v.
  - rewrite fmap_cons, for_await_cons, IH. simpl.
    by rewrite str_app_assoc.
Qed.

Lemma anthropic_block v i b :
  Loop.for_await Anthropic.on_chunk v (block_events i b)
  = ({| Anthropic.usage := Anthropic.usage v;
        Anthropic.accumulatedText :=
          Anthropic.accumulatedText v
            +:+ (if Anthropic.isFirstBlock v then EmptyString else Js.LF)
            +:+ block_text b;
        Anthropic.currentBlockText := EmptyString;
        Anthropic.isFirstBlock := false |}, []).
Proof.
  unfold block_events.
  rewrite for_await_cons, (for_await_app Anthropic.on_chunk).
  rewrite anthropic_deltas. simpl. rewrite or_str_empty.
  destruct (Anthropic.isFirstBlock v); simpl; [done|].
  by rewrite !str_app_assoc.
Qed.

Lemma anthropic_blocks bs : forall v i,
  Loop.for_await Anthropic.on_chunk v (blocks_events i bs)
  = ({| Anthropic.usage := Anthropic.usage v;
        Anthropic.accumulatedText :=
          Anthropic.accumulatedText v
            +:+ (if Anthropic.isFirstBlock v then joined_text bs
                 else led_text bs);
        Anthropic.currentBlockText :=
          match bs with [] => Anthropic.currentBlockText v | _ => EmptyString end;
        Anthropic.isFirstBlock :=
          match bs with [] => Anthropic.isFirstBlock v | _ => false end |},
     []).
Proof.
  induction bs as [|b rest IH]; intros v i.
  - simpl. destruct v as [u a c [|]]; simpl; by rewrite str_app_nil_r.
  - change (blocks_events i (b :: rest))
      with (block_events i b ++ blocks_events (S i) rest).
    rewrite (for_await_app Anthropic.on_chunk), anthropic_block, IH. simpl.
    f_equal. f_equal.
    + destruct (Anthropic.isFirstBlock v); simpl;
        by rewrite !str_app_assoc.
    + by destruct rest.
    + by destruct rest.
Qed.
End Messages.

Section MessagesDup.
Import AnthropicDup.

Lemma dup_chunk_events v c : (on_chunk v c).2 = chunk_events c.
Proof.
  destruct c as [u|n| |i [t|? ?]|i [t|?]|i|?]; try done.
  unfold chunk_events. simpl. by destruct (0 <? i)%N.
Qed.

Lemma dup_decode_flat stream : decode stream = flat_map chunk_events stream.
Proof. unfold decode. apply for_await_stateless, dup_chunk_events. Qed.

Lemma dup_deltas_text i (ds : list string) :
  received_text (flat_map chunk_events
    ((fun d => content_block_delta i (TextDelta d)) <$> ds))
  = foldr (fun d acc => d +:+ acc) EmptyString ds.
Proof.
  induction ds as [|d ds IH]; [done|].
  rewrite fmap_cons. simpl. by rewrite IH.
Qed.

Lemma dup_block_text i b :
  received_text (flat_map chunk_events (block_events i b))
    = (if (i =? 0)%nat then EmptyString else Js.LF) +:+ block_text b.
Proof.
  unfold block_events, block_text.
  change (received_text
            (chunk_events (content_block_start (N.of_nat i) (TextBlock (inline b)))
             ++ flat_map chunk_events
                  (((fun d => content_block_delta (N.of_nat i) (TextDelta d))
                      <$> deltas b) ++ [content_block_stop (N.of_nat i)]))
          = (if (i =? 0)%nat then EmptyString else Js.LF)
              +:+ foldr (fun d acc => d +:+ acc) EmptyString (inline b :: deltas b)).
  rewrite flat_map_app, !received_text_app, dup_deltas_text.
  simpl foldr. simpl (received_text (flat_map _ [_])).
  rewrite str_app_nil_r.
  unfold chunk_events. simpl.
  destruct i as [|i]; simpl; rewrite !str_app_nil_r, ?str_app_assoc;
    reflexivity.
Qed.

Lemma dup_blocks_text bs : forall i,
  received_text (flat_map chunk_events (blocks_events i bs))
    = if (i =? 0)%nat then joined_text bs else led_text bs.
Proof.
  induction bs as [|b rest IH]; intros i.
  - simpl. by destruct (i =? 0)%nat.
  - change (blocks_events i (b :: rest))
      with (block_events i b ++ blocks_events (S i) rest).
    rewrite flat_map_app, received_text_app, dup_block_text, IH. simpl.
    destruct (i =? 0)%nat; simpl; [done|].
    by rewrite !str_app_assoc.
Qed.

Lemma dup_decode_message u bs out :
  decode (message_events u bs out)
    = UsageEvent (input_tokens u) (output_tokens u)
                 (Js.or_undefined (cache_creation_input_tokens u))
                 (Js.or_undefined (cache_read_input_tokens u))
        :: flat_map chunk_events (blocks_events 0 bs).
Proof.
  rewrite dup_decode_flat. unfold message_events. simpl.
  rewrite flat_map_app. simpl. rewrite app_nil_r.
  unfold chunk_events at 1. simpl. by rewrite !or_num_zero.
Qed.
End MessagesDup.

Lemma or_undefined_idem n : Js.or_undefined (Js.or_undefined n) = Js.or_undefined n.
Proof.
  destruct n as [v|]; simpl; [|done].
  destruct (N.eqb_spec v 0); simpl; [done|].
  by destruct (N.eqb_spec v 0).
Qed.

Lemma anthropic_decode_message u bs out :
  Anthropic.decode (message_events u bs out)
    = (if Js.truthy_str (joined_text bs) then [TextEvent (joined_text bs)] else [])
      ++ [UsageEvent (input_tokens u) (output_tokens u + out)
                     (Js.or_undefined (cache_creation_input_tokens u))
                     (Js.or_undefined (cache_read_input_tokens u))].
Proof.
  unfold Anthropic.decode, message_events.
  rewrite for_await_cons, (for_await_app Anthropic.on_chunk), anthropic_blocks.
  simpl. rewrite !or_num_zero.
  destruct (N.eqb_spec out 0) as [->|Hout]; simpl;
    unfold Anthropic.final_usage; simpl;
    rewrite !or_undefined_idem, ?N.add_0_r, app_nil_r;
    change (EmptyString +:+ joined_text bs) with (joined_text bs); done.
Qed.

(** ** Text deltas (C3) *)

(** C3: the second variant yields, in the iteration that reads a
    [text_delta] chunk, one [TextEvent] with exactly the delta's text. The
    first variant yields nothing there: it appends the text to
    [currentBlockText], and the deltas of a block reach the caller coalesced
    with the rest of the message in the one [TextEvent] of [message_stop]. *)
Theorem C3_text_delta :
  (forall v i t,
     (AnthropicDup.on_chunk v (content_block_delta i (TextDelta t))).2
       = [TextEvent t])
  /\ (forall v i t,
        Anthropic.on_chunk v (content_block_delta i (TextDelta t))
          = ({| Anthropic.usage := Anthropic.usage v;
                Anthropic.accumulatedText := Anthropic.accumulatedText v;
                Anthropic.currentBlockText := Anthropic.currentBlockText v +:+ t;
                Anthropic.isFirstBlock := Anthropic.isFirstBlock v |}, []))
  /\ Anthropic.decode
       [message_start (start_usage 5 1);
        content_block_start 0 (TextBlock EmptyString);
        content_block_delta 0 (TextDelta "Hel");
        content_block_delta 0 (TextDelta "lo");
        content_block_stop 0; message_stop]
     = [TextEvent "Hello"; UsageEvent 5 1 None None]
  /\ AnthropicDup.decode
       [message_start (start_usage 5 1);
        content_block_start 0 (TextBlock EmptyString);
        content_block_delta 0 (TextDelta "Hel");
        content_block_delta 0 (TextDelta "lo");
        content_block_stop 0; message_stop]
     = [UsageEvent 5 1 None None; TextEvent EmptyString; TextEvent "Hel"; TextEvent "lo"].
Proof. repeat split. Qed.

(** ** Output tokens of [message_delta] (C5) *)

(** C5: the second variant overwrites [outputTokens] with the chunk's count;
    the first variant adds the chunk's count to the count it holds, so the
    [UsageEvent] it yields for [message_start] with 1 output token followed by
    [message_delta] with 7 carries 8. *)
Theorem C5_message_delta :
  (forall v n,
     AnthropicDup.outputTokens
       (AnthropicDup.usageData (AnthropicDup.on_chunk v (message_delta n)).1)
     = n)
  /\ (forall v n,
        Anthropic.outputTokens
          (Anthropic.usage (Anthropic.on_chunk v (message_delta n)).1)
        = (Anthropic.outputTokens (Anthropic.usage v) + n)%N)
  /\ Anthropic.decode [message_start (start_usage 5 1); message_delta 7]
     = [UsageEvent 5 8 None None]
  /\ AnthropicDup.outputTokens
       (AnthropicDup.usageData
          (AnthropicDup.terminal
             [message_start (start_usage 5 1); message_delta 7]))
     = 7%N.
Proof.
  repeat split.
  - intros v n. simpl. apply or_num_zero.
  - intros v n. simpl. destruct (N.eqb_spec n 0) as [->|Hn]; simpl; [|done].
    by rewrite N.add_0_r.
Qed.

(** ** Text blocks (C7) *)

(** C7: the second variant yields, in the iteration that reads a text
    [content_block_start], a line feed when the chunk's [index] is above 0
    and then the block's inline text. The first variant yields nothing there:
    the line feed goes to [accumulatedText] when a text block was started
    before, the inline text becomes [currentBlockText], and both reach the
    caller in the one [TextEvent] of [message_stop]. *)
Theorem C7_text_block_start :
  (forall v i t,
     (AnthropicDup.on_chunk v (content_block_start i (TextBlock t))).2
       = (if (0 <? i)%N then [TextEvent Js.LF] else []) ++ [TextEvent t])
  /\ (forall v i t,
        Anthropic.on_chunk v (content_block_start i (TextBlock t))
          = ({| Anthropic.usage := Anthropic.usage v;
                Anthropic.accumulatedText :=
                  if Anthropic.isFirstBlock v then Anthropic.accumulatedText v
                  else Anthropic.accumulatedText v +:+ Js.LF;
                Anthropic.currentBlockText := t;
                Anthropic.isFirstBlock := false |}, []))
  /\ Anthropic.decode
       [content_block_start 0 (TextBlock "A"); content_block_stop 0;
        content_block_start 1 (TextBlock "B"); content_block_stop 1;
        message_stop]
     = [TextEvent ("A" +:+ Js.LF +:+ "B"); UsageEvent 0 0 None None]
  /\ AnthropicDup.decode
       [content_block_start 0 (TextBlock "A"); content_block_stop 0;
        content_block_start 1 (TextBlock "B"); content_block_stop 1;
        message_stop]
     = [TextEvent "A"; TextEvent Js.LF; TextEvent "B"].
Proof.
  repeat split.
  - intros v i t. simpl. by destruct (0 <? i)%N.
  - intros v i t. simpl. rewrite or_str_empty.
    by destruct (Anthropic.isFirstBlock v).
Qed.

(** ** Cache token counts (C10) *)
Lemma or_undefined_visible n : Js.or_undefined n = visible n.
Proof.
  unfold visible. destruct n as [v|]; simpl; [|done].
  by destruct (v =? 0)%N.
Qed.

Lemma visible_nonzero n : visible n <> Some 0%N.
Proof.
  unfold visible. destruct n as [v|]; simpl; [|done].
  destruct (N.eqb_spec v 0); congruence.
Qed.

Lemma visible_idem n : visible (visible n) = visible n.
Proof. by rewrite <- !or_undefined_visible, or_undefined_idem. Qed.

(** Only [message_start] touches the cache counts of the first variant's
    usage state. *)
Lemma anthropic_cache_kept stream : forall v,
  existsb is_message_start stream = false ->
  Anthropic.cacheWriteTokens (Anthropic.usage (Loop.for_await Anthropic.on_chunk v stream).1)
    = Anthropic.cacheWriteTokens (Anthropic.usage v)
  /\ Anthropic.cacheReadTokens (Anthropic.usage (Loop.for_await Anthropic.on_chunk v stream).1)
     = Anthropic.cacheReadTokens (Anthropic.usage v).
Proof.
  induction stream as [|c rest IH]; intros v Hno; [done|].
  simpl in Hno. apply orb_false_iff in Hno as [Hc Hrest].
  rewrite for_await_cons. simpl.
  destruct (IH (Anthropic.on_chunk v c).1 Hrest) as [-> ->].
  destruct c as [u|n| |i [t|? ?]|i [t|?]|i|?]; try done.
  simpl. by destruct (n =? 0)%N.
Qed.

Lemma dup_events_no_zero_cache stream :
  Forall no_zero_cache (AnthropicDup.decode stream).
Proof.
  rewrite dup_decode_flat. induction stream as [|c rest IH]; simpl; [done|].
  apply Forall_app. split; [|done].
  destruct c as [u|n| |i [t|? ?]|i [t|?]|i|?];
    unfold AnthropicDup.chunk_events; simpl; try done.
  - repeat constructor; rewrite or_undefined_visible; apply visible_nonzero.
  - destruct (0 <? i)%N; simpl; by repeat constructor.
  - by repeat constructor.
Qed.

Lemma anthropic_events_no_zero_cache stream :
  Forall no_zero_cache (Anthropic.decode stream).
Proof.
  rewrite anthropic_decode_eq. apply Forall_app. split.
  - pose proof (anthropic_loop_text Anthropic.initial stream) as Htext.
    induction (Loop.for_await Anthropic.on_chunk Anthropic.initial stream).2
      as [|[t|? ? ? ?] l IH]; simpl in *; [done| |done].
    constructor; [done|]. by apply IH.
  - repeat constructor; simpl; rewrite or_undefined_visible;
      apply visible_nonzero.
Qed.

(** C10: at [message_start] both variants store, for each cache count, what
    is visible of the reported count: nothing when the backend reported 0 or
    reported no count. The [UsageEvent] the second variant yields for the
    chunk carries the same, and so does the final [UsageEvent] of the first
    variant when no later [message_start] follows. No [UsageEvent] of either
    variant ever carries a cache count of 0. *)
Theorem C10_zero_cache_is_absent :
  (forall v u,
     let v1 := (Anthropic.on_chunk v (message_start u)).1 in
     Anthropic.cacheWriteTokens (Anthropic.usage v1)
       = visible (cache_creation_input_tokens u)
     /\ Anthropic.cacheReadTokens (Anthropic.usage v1)
        = visible (cache_read_input_tokens u))
  /\ (forall v u,
        let v2 := (AnthropicDup.on_chunk v (message_start u)).1 in
        AnthropicDup.cacheWriteTokens (AnthropicDup.usageData v2)
          = visible (cache_creation_input_tokens u)
        /\ AnthropicDup.cacheReadTokens (AnthropicDup.usageData v2)
           = visible (cache_read_input_tokens u)
        /\ (AnthropicDup.on_chunk v (message_start u)).2
           = [UsageEvent (input_tokens u) (output_tokens u)
                         (visible (cache_creation_input_tokens u))
                         (visible (cache_read_input_tokens u))])
  /\ (forall before u after,
        existsb is_message_start after = false ->
        exists texts i o,
          Anthropic.decode (before ++ message_start u :: after)
            = texts ++ [UsageEvent i o
                          (visible (cache_creation_input_tokens u))
                          (visible (cache_read_input_tokens u))])
  /\ (forall stream,
        Forall no_zero_cache (Anthropic.decode stream)
        /\ Forall no_zero_cache (AnthropicDup.decode stream)).
Proof.
  repeat split.
  - simpl. apply or_undefined_visible.
  - simpl. apply or_undefined_visible.
  - simpl. apply or_undefined_visible.
  - simpl. apply or_undefined_visible.
  - simpl. by rewrite !or_undefined_visible, !or_num_zero.
  - intros before u after Hno.
    rewrite anthropic_decode_eq. unfold Anthropic.terminal.
    rewrite (for_await_app Anthropic.on_chunk), for_await_cons.
    set (v0 := (Loop.for_await Anthropic.on_chunk Anthropic.initial before).1).
    set (v1 := (Anthropic.on_chunk v0 (message_start u)).1).
    destruct (anthropic_cache_kept after v1 Hno) as [Hw Hr].
    eexists _, _, _. f_equal. unfold Anthropic.final_usage.
    cbn [fst snd]. rewrite Hw, Hr. simpl.
    by rewrite !or_undefined_visible, !visible_idem.
  - apply anthropic_events_no_zero_cache.
  - apply dup_events_no_zero_cache.
Qed.

Lemma C10_witness :
  exists texts i o,
    Anthropic.decode
      ([] ++ message_start
               {| input_tokens := 5; output_tokens := 1;
                  cache_creation_input_tokens := Some 0%N;
                  cache_read_input_tokens := None |}
          :: [message_delta 7; message_stop])
    = texts ++ [UsageEvent i o (visible (Some 0%N)) (visible None)].
Proof.
  apply (proj1 (proj2 (proj2 C10_zero_cache_is_absent)) []
           {| input_tokens := 5; output_tokens := 1;
              cache_creation_input_tokens := Some 0%N;
              cache_read_input_tokens := None |}
           [message_delta 7; message_stop]).
  reflexivity.
Defined.

(** ** The two Anthropic variants side by side (C4) *)

(** C4, as stated, fails: on one complete message the first variant yields
    the text as a single event and then the usage with the output counts
    added up, the second the usage of [message_start] and then the pieces of
    text. *)
Lemma C4_counterexample :
  let stream :=
    message_events (start_usage 5 1) [ {| inline := "A"; deltas := ["!"] |} ] 7 in
  let tbl : gmap string ModelInfo :=
    {[ "claude-3-5-sonnet-20241022" := {| maxTokens := Some 8192%Z |} ]} in
  let first :=
    Anthropic.createMessage tbl "claude-3-5-sonnet-20241022"
      {| Anthropic.options := no_options; Anthropic.client := serving stream |}
      "sys" [] in
  let second :=
    AnthropicDup.createMessage tbl "claude-3-5-sonnet-20241022"
      {| AnthropicDup.options := no_options;
         AnthropicDup.client := serving stream |}
      "sys" [] in
  first = [TextEvent "A!"; UsageEvent 5 8 None None]
  /\ second = [UsageEvent 5 1 None None; TextEvent "A"; TextEvent "!"]
  /\ first <> second.
Proof. repeat split. discriminate. Qed.

(** C4, amended: for the same options, system prompt and messages the two
    variants call the same entry point of the client with the same headers
    and the same [model], [max_tokens], [temperature], [messages] and
    [stream]; and for every complete message made of text blocks the text a
    consumer receives, the concatenation of the [TextEvent]s, is the same for
    both: the texts of the blocks with one line feed between two blocks.
    In both variants [createMessage] yields what the decoder makes of the
    stream the client opened. *)
Theorem C4_variants_agree :
  (forall tbl dflt opts client sys msgs,
     let r1 := Anthropic.request tbl dflt
                 {| Anthropic.options := opts; Anthropic.client := client |}
                 sys msgs in
     let r2 := AnthropicDup.request tbl dflt
                 {| AnthropicDup.options := opts; AnthropicDup.client := client |}
                 sys msgs in
     r1.1.1 = r2.1.1 /\ r1.2 = r2.2
     /\ model r1.1.2 = model r2.1.2
     /\ max_tokens r1.1.2 = max_tokens r2.1.2
     /\ temperature r1.1.2 = temperature r2.1.2
     /\ messages r1.1.2 = messages r2.1.2
     /\ stream r1.1.2 = stream r2.1.2)
  /\ (forall u bs out,
        received_text (Anthropic.decode (message_events u bs out))
          = joined_text bs
        /\ received_text (AnthropicDup.decode (message_events u bs out))
           = joined_text bs)
  /\ (forall tbl dflt this sys msgs,
        Anthropic.createMessage tbl dflt this sys msgs
          = Anthropic.decode (Anthropic.open_stream tbl dflt this sys msgs))
  /\ (forall tbl dflt this sys msgs,
        AnthropicDup.createMessage tbl dflt this sys msgs
          = AnthropicDup.decode (AnthropicDup.open_stream tbl dflt this sys msgs)).
Proof.
  split; [|split; [|split]];
    [| |apply anthropic_createMessage_decode|apply dup_createMessage_decode].
  - intros tbl dflt opts client sys msgs.
    unfold Anthropic.request, AnthropicDup.request,
      Anthropic.getModel, AnthropicDup.getModel,
      AnthropicDup.request_options. simpl.
    change AnthropicDup.cache_models with Anthropic.cache_models.
    destruct (apiModelId opts) as [m|]; simpl.
    + destruct (Js.truthy_str m && Js.has_property tbl m); simpl;
        case_bool_decide; simpl; done.
    + case_bool_decide; simpl; done.
  - intros u bs out. split.
    + rewrite anthropic_decode_message, received_text_app. simpl.
      rewrite str_app_nil_r.
      unfold Js.truthy_str.
      destruct (String.eqb_spec (joined_text bs) EmptyString) as [->|Hne]; simpl; [done|].
      apply str_app_nil_r.
    + rewrite dup_decode_message. simpl. apply (dup_blocks_text bs 0).
Qed.

(** ** Cache directives (C2) *)
Section CacheHints.
Import Anthropic.

Lemma userMsgIndices_snoc msgs m :
  userMsgIndices (msgs ++ [m])
    = userMsgIndices msgs ++ (if is_user m then [length msgs] else []).
Proof.
  unfold userMsgIndices, reduce_indexed.
  rewrite imap_app, fold_left_app. simpl.
  rewrite Nat.add_0_r. destruct (is_user m); [done|].
  by rewrite app_nil_r.
Qed.

Lemma users_after_snoc_lt msgs m i :
  i < length msgs ->
  users_after (msgs ++ [m]) i
    = users_after msgs i + (if is_user m then 1 else 0).
Proof.
  intros Hi. unfold users_after.
  rewrite drop_app_le by lia.
  rewrite List.filter_app, length_app. simpl. by destruct (is_user m).
Qed.

Lemma users_after_ge msgs i : length msgs <= S i -> users_after msgs i = 0.
Proof. intros Hi. unfold users_after. by rewrite drop_ge. Qed.

(** The [k]-th entry of [userMsgIndices] is the position of a user message
    that has as many user messages after it as entries follow. *)
Lemma userMsgIndices_lookup msgs : forall k i,
  userMsgIndices msgs !! k = Some i ->
  (exists m, msgs !! i = Some m /\ is_user m = true)
  /\ users_after msgs i + S k = length (userMsgIndices msgs).
Proof.
  induction msgs as [|m msgs IH] using rev_ind; intros k i Hk; [done|].
  rewrite userMsgIndices_snoc in *.
  apply lookup_app_Some in Hk as [Hk|[Hlen Hk]].
  - destruct (IH k i Hk) as [(m' & Hm' & Hu) Hcount].
    assert (i < length msgs) by (by eapply lookup_lt_Some).
    split.
    + exists m'. by rewrite lookup_app_l.
    + rewrite users_after_snoc_lt, length_app by done.
      destruct (is_user m); simpl; lia.
  - destruct (is_user m) eqn:Hu; [|done].
    apply list_lookup_singleton_Some in Hk as [Hk0 <-].
    split.
    + exists m. split; [|done].
      by rewrite lookup_app_r, Nat.sub_diag.
    + rewrite users_after_ge by (rewrite length_app; simpl; lia).
      rewrite length_app. simpl. lia.
Qed.

(** Every user message has its position in [userMsgIndices]. *)
Lemma userMsgIndices_complete msgs : forall i m,
  msgs !! i = Some m -> is_user m = true ->
  exists k, userMsgIndices msgs !! k = Some i.
Proof.
  induction msgs as [|x msgs IH] using rev_ind; intros i m Hi Hu; [done|].
  rewrite userMsgIndices_snoc.
  apply lookup_app_Some in Hi as [Hi|[Hlen Hi]].
  - destruct (IH i m Hi Hu) as [k Hk]. exists k.
    by apply lookup_app_l_Some.
  - apply list_lookup_singleton_Some in Hi as [Hi0 <-].
    rewrite Hu. exists (length (userMsgIndices msgs)).
    rewrite lookup_app_r, Nat.sub_diag by done. simpl.
    f_equal. lia.
Qed.

(** [idx[idx.length - d] ?? -1] is the position [i] exactly when [i] is
    the entry that has [d - 1] entries after it. *)
Lemma index_from_end (idx : list nat) (d i : nat) :
  0 < d ->
  Z.of_nat i
    = Js.nullish (Z.of_nat <$> Js.index idx (Z.of_nat (length idx) - Z.of_nat d))
                 (-1)%Z
  <-> exists k, idx !! k = Some i /\ k + d = length idx.
Proof.
  intros Hd. unfold Js.index.
  destruct (Z.ltb_spec (Z.of_nat (length idx) - Z.of_nat d) 0) as [Hneg|Hpos].
  - simpl. split; [lia|]. intros (k & _ & Hk). lia.
  - replace (Z.to_nat (Z.of_nat (length idx) - Z.of_nat d))
      with (length idx - d) by lia.
    destruct (idx !! (length idx - d)) as [i'|] eqn:Hi'; simpl.
    + split.
      * intros Heq. assert (i = i') as -> by lia.
        exists (length idx - d). split; [done|lia].
      * intros (k & Hk & Hlen).
        replace (length idx - d) with k in Hi' by lia. congruence.
    + split; [lia|]. intros (k & Hk & Hlen).
      replace (length idx - d) with k in Hi' by lia. congruence.
Qed.

(** The two indices the handler computes are the positions of the user
    messages with fewer than two user messages after them. *)
Lemma marked_positions msgs i :
  (Z.of_nat i =? lastUserMsgIndex msgs)%Z
    || (Z.of_nat i =? secondLastMsgUserIndex msgs)%Z
  = match msgs !! i with
    | Some m => is_user m && (users_after msgs i <? 2)
    | None => false
    end.
Proof.
  apply eq_true_iff_eq.
  rewrite orb_true_iff, !Z.eqb_eq.
  unfold lastUserMsgIndex, secondLastMsgUserIndex.
  change 1%Z with (Z.of_nat 1). change 2%Z with (Z.of_nat 2).
  rewrite !index_from_end by lia.
  split.
  - intros [(k & Hk & Hlen)|(k & Hk & Hlen)];
      destruct (userMsgIndices_lookup msgs k i Hk) as [(m & -> & ->) Hcount];
      simpl; apply Nat.ltb_lt; lia.
  - destruct (msgs !! i) as [m|] eqn:Hm; [|done].
    intros [Hu Hlt%Nat.ltb_lt]%andb_true_iff.
    destruct (userMsgIndices_complete msgs i m Hm Hu) as [k Hk].
    destruct (userMsgIndices_lookup msgs k i Hk) as [_ Hcount].
    destruct (users_after msgs i) as [|[|n]] eqn:Hn; [| |lia].
    + left. exists k. split; [done|lia].
    + right. exists k. split; [done|lia].
Qed.
End CacheHints.

Section CacheHintsRequest.
Import Anthropic.

Lemma mark_message_annotated last second m i j :
  annotated [mark_message last second m i] 0 j
    = ((Z.of_nat i =? last)%Z || (Z.of_nat i =? second)%Z) && last_part m j.
Proof.
  unfold mark_message, annotated, last_part, as_is. simpl.
  destruct ((Z.of_nat i =? last)%Z || (Z.of_nat i =? second)%Z); simpl.
  - destruct (Api.content m) as [s|parts]; simpl.
    + by destruct j as [|[|j]].
    + unfold map_indexed. rewrite list_lookup_imap.
      destruct (parts !! j) as [p|] eqn:Hp; simpl.
      * apply lookup_lt_Some in Hp.
        change (match length parts with 0 => false | S m' => j =? m' end)
          with (S j =? length parts).
        destruct (Z.eqb_spec (Z.of_nat j) (Z.of_nat (length parts) - 1));
          destruct (Nat.eqb_spec (S j) (length parts)); simpl; try done; lia.
      * apply lookup_ge_None in Hp. symmetry.
        change (match length parts with 0 => false | S m' => j =? m' end)
          with (S j =? length parts).
        apply Nat.eqb_neq. lia.
  - destruct (Api.content m) as [s|parts]; simpl; [done|].
    rewrite list_lookup_fmap. by destruct (parts !! j).
Qed.

Lemma cached_messages_annotated msgs i j :
  annotated (cached_messages msgs) i j = policy msgs i j.
Proof.
  pose proof (marked_positions msgs i) as Hpos.
  unfold policy, cached_messages, map_indexed.
  unfold annotated at 1. rewrite list_lookup_imap.
  destruct (msgs !! i) as [m|] eqn:Hm; simpl; [|done].
  pose proof (mark_message_annotated (lastUserMsgIndex msgs)
                (secondLastMsgUserIndex msgs) m i j) as Hmark.
  unfold annotated in Hmark. simpl in Hmark.
  by rewrite Hmark, Hpos.
Qed.

Lemma as_is_annotated msgs i j : annotated (as_is <$> msgs) i j = false.
Proof.
  unfold annotated. rewrite list_lookup_fmap.
  destruct (msgs !! i) as [m|]; simpl; [|done].
  unfold as_is. simpl. destruct (Api.content m) as [s|parts]; simpl; [done|].
  rewrite list_lookup_fmap. by destruct (parts !! j).
Qed.

(** The directives are added to the parts; the parts themselves are those
    of the conversation. *)
Lemma mark_message_parts last second m i :
  wire_parts_of (mark_message last second m i) = parts_of m
  /\ role (mark_message last second m i) = Api.role m.
Proof.
  unfold mark_message, wire_parts_of, parts_of, as_is.
  destruct ((Z.of_nat i =? last)%Z || (Z.of_nat i =? second)%Z); simpl;
    destruct (Api.content m) as [s|parts]; simpl; try done.
  - split; [|done]. unfold map_indexed.
    apply list_eq. intros k.
    rewrite list_lookup_fmap, list_lookup_imap.
    destruct (parts !! k) as [p|]; simpl; [|done].
    by destruct (Z.of_nat k =? Z.of_nat (length parts) - 1)%Z.
  - split; [|done]. rewrite <- list_fmap_compose.
    by rewrite <- (list_fmap_id parts) at 2.
Qed.

Lemma cached_messages_parts msgs :
  wire_parts_of <$> cached_messages msgs = parts_of <$> msgs
  /\ role <$> cached_messages msgs = Api.role <$> msgs.
Proof.
  unfold cached_messages, map_indexed.
  split; apply list_eq; intros k;
    rewrite !list_lookup_fmap, list_lookup_imap;
    destruct (msgs !! k) as [m|]; simpl; try done; f_equal;
    apply mark_message_parts.
Qed.
End CacheHintsRequest.

Lemma as_is_parts (msgs : list MessageParam) :
  wire_parts_of <$> (as_is <$> msgs) = parts_of <$> msgs.
Proof.
  rewrite <- list_fmap_compose. apply list_fmap_ext. intros _ m _.
  unfold wire_parts_of, parts_of, as_is. simpl.
  destruct (Api.content m) as [s|parts]; simpl; [done|].
  rewrite <- list_fmap_compose. by rewrite <- (list_fmap_id parts) at 2.
Qed.

(** C2, as stated, fails: on a model of the prompt caching branch the second
    variant also puts a cache directive on the block that carries the system
    prompt, a part of the request that belongs to no user message. *)
Lemma C2_counterexample :
  let tbl : gmap string ModelInfo :=
    {[ "claude-3-5-sonnet-20241022" := {| maxTokens := Some 8192%Z |} ]} in
  let r :=
    (AnthropicDup.request tbl "claude-3-5-sonnet-20241022"
       {| AnthropicDup.options := no_options;
          AnthropicDup.client := serving [] |}
       "sys" [ {| Api.role := user; Api.content := ContentString "a" |} ]).1.2 in
  system r
    = SystemBlocks [ {| sys_text := "sys"; sys_cache_control := Some ephemeral |} ]
  /\ messages r
     = [ {| role := user;
            content := Blocks [ {| block := TextBlockParam "a";
                                   cache_control := Some ephemeral |} ] |} ].
Proof. split; reflexivity. Qed.

(** C2, amended: in the [messages] of the request of either variant, part
    [j] of message [i] carries a cache directive exactly when the model is
    one of the prompt caching branch, message [i] is a user message with
    fewer than two user messages after it, and [j] is its last part, a string
    body counting as one text part; the parts and roles are otherwise those
    of the conversation. Outside [messages], the first variant sends the
    system prompt as a string, and the second sends it as one block that
    carries a cache directive exactly on the models of the prompt caching
    branch. *)
Theorem C2_cache_hints tbl dflt opts client sys (msgs : list MessageParam) :
  let this1 := {| Anthropic.options := opts; Anthropic.client := client |} in
  let this2 := {| AnthropicDup.options := opts; AnthropicDup.client := client |} in
  let capable1 :=
    bool_decide (Anthropic.id (Anthropic.getModel tbl dflt this1)
                   ∈ Anthropic.cache_models) in
  let capable2 :=
    bool_decide (AnthropicDup.id (AnthropicDup.getModel tbl dflt this2)
                   ∈ AnthropicDup.cache_models) in
  let r1 := (Anthropic.request tbl dflt this1 sys msgs).1.2 in
  let r2 := (AnthropicDup.request tbl dflt this2 sys msgs).1.2 in
  (forall i j, annotated (messages r1) i j = capable1 && policy msgs i j)
  /\ (forall i j, annotated (messages r2) i j = capable2 && policy msgs i j)
  /\ wire_parts_of <$> messages r1 = parts_of <$> msgs
  /\ wire_parts_of <$> messages r2 = parts_of <$> msgs
  /\ role <$> messages r1 = Api.role <$> msgs
  /\ role <$> messages r2 = Api.role <$> msgs
  /\ system r1 = SystemText sys
  /\ system r2
     = SystemBlocks
         [ {| sys_text := sys;
              sys_cache_control := if capable2 then Some ephemeral else None |} ].
Proof.
  intros this1 this2 capable1 capable2 r1 r2.
  assert (Hplain : role <$> (as_is <$> msgs) = Api.role <$> msgs).
  { rewrite <- list_fmap_compose. by apply list_fmap_ext. }
  subst r1 r2. unfold Anthropic.request, AnthropicDup.request.
  fold capable1 capable2.
  change AnthropicDup.cached_messages with Anthropic.cached_messages.
  destruct capable1, capable2; simpl; repeat split;
    try (intros i j);
    try apply cached_messages_annotated;
    try apply as_is_annotated;
    try apply cached_messages_parts;
    try apply as_is_parts; done.
Qed.

(** ** Request parameters (C8) *)

(** C8, as stated, fails: the request of the OpenAI handler has no
    maximum-output-token limit at all, whatever the model descriptor says. *)
Lemma C8_counterexample :
  let sane := {| maxTokens := Some 4096%Z |} in
  let this := {| OpenAi.options := no_options; OpenAi.client := fun _ => [] |} in
  let r := OpenAi.requestOptions (fun _ => []) this "sys" [] in
  OpenAi.max_tokens r = None
  /\ OpenAi.max_tokens r
     <> Some (Js.or_int (maxTokens (OpenAi.info (OpenAi.getModel sane this))) 8192).
Proof. split; [reflexivity | discriminate]. Qed.

(** C8, amended: every request of the two Anthropic variants, on either
    branch, has [stream = true], [temperature = 0] and a [max_tokens] that is
    the [maxTokens] of the resolved model when that is set and not 0, and
    8192 otherwise. The request of the OpenAI handler has [stream = true]
    and [temperature = 0] and sets no limit. *)
Theorem C8_request_parameters tbl dflt sane conv opts client oclient sys
    (msgs : list MessageParam) :
  let this1 := {| Anthropic.options := opts; Anthropic.client := client |} in
  let this2 := {| AnthropicDup.options := opts; AnthropicDup.client := client |} in
  let this3 := {| OpenAi.options := opts; OpenAi.client := oclient |} in
  let info1 := Anthropic.info (Anthropic.getModel tbl dflt this1) in
  let info2 := AnthropicDup.info (AnthropicDup.getModel tbl dflt this2) in
  let r1 := (Anthropic.request tbl dflt this1 sys msgs).1.2 in
  let r2 := (AnthropicDup.request tbl dflt this2 sys msgs).1.2 in
  let r3 := OpenAi.requestOptions conv this3 sys msgs in
  (stream r1 = true /\ temperature r1 = 0%Z
   /\ (forall n, maxTokens info1 = Some n -> n <> 0%Z -> max_tokens r1 = n)
   /\ (maxTokens info1 = None \/ maxTokens info1 = Some 0%Z ->
       max_tokens r1 = 8192%Z))
  /\ (stream r2 = true /\ temperature r2 = 0%Z
      /\ (forall n, maxTokens info2 = Some n -> n <> 0%Z -> max_tokens r2 = n)
      /\ (maxTokens info2 = None \/ maxTokens info2 = Some 0%Z ->
          max_tokens r2 = 8192%Z))
  /\ (OpenAi.stream r3 = true /\ OpenAi.temperature r3 = 0%Z
      /\ OpenAi.max_tokens r3 = None
      /\ OpenAi.info (OpenAi.getModel sane this3) = sane).
Proof.
  intros this1 this2 this3 info1 info2 r1 r2 r3.
  assert (Hset : forall o n, o = Some n -> n <> 0%Z -> Js.or_int o 8192 = n).
  { intros o n -> Hn. simpl. by destruct (Z.eqb_spec n 0). }
  assert (Hunset : forall o, o = None \/ o = Some 0%Z -> Js.or_int o 8192 = 8192%Z).
  { by intros o [-> | ->]. }
  subst r1 r2 r3. unfold Anthropic.request, AnthropicDup.request.
  fold info1 info2.
  repeat split; try done; repeat case_bool_decide; simpl; auto.
Qed.

Lemma C8_witness :
  max_tokens
    (Anthropic.request
       {[ "claude-3-opus-20240229" := {| maxTokens := Some 4096%Z |} ]}
       "claude-3-opus-20240229"
       {| Anthropic.options := no_options; Anthropic.client := serving [] |}
       "sys" []).1.2
  = 4096%Z.
Proof.
  apply (proj1 (proj2 (proj2 (proj1
           (C8_request_parameters
              {[ "claude-3-opus-20240229" := {| maxTokens := Some 4096%Z |} ]}
              "claude-3-opus-20240229" {| maxTokens := None |} (fun _ => [])
              no_options (serving []) (fun _ => []) "sys" []))))).
  - reflexivity.
  - discriminate.
Defined.

(** ** Model resolution (C9) *)

(** C9, as stated, fails: the OpenAI handler consults no model table, yet
    what it returns is not one fixed descriptor: the descriptor carries the
    configured model id. And an id that is no key of the Anthropic table but
    a name the table inherits, such as [toString], passes the [in] test and
    comes back as the id instead of the default. *)
Lemma C9_counterexample :
  let sane := {| maxTokens := None |} in
  let with_id id :=
    {| OpenAi.options := {| apiModelId := None; openAiModelId := Some id;
                            includeStreamOptions := None |};
       OpenAi.client := fun _ => [] |} in
  let tbl : gmap string ModelInfo :=
    {[ "claude-3-5-sonnet-20241022" := {| maxTokens := Some 8192%Z |} ]} in
  let asking id :=
    {| Anthropic.options := {| apiModelId := Some id; openAiModelId := None;
                               includeStreamOptions := None |};
       Anthropic.client := serving [] |} in
  OpenAi.getModel sane (with_id "gpt-4o")
    = {| OpenAi.id := "gpt-4o"; OpenAi.info := sane |}
  /\ OpenAi.getModel sane (with_id "o1-mini")
     = {| OpenAi.id := "o1-mini"; OpenAi.info := sane |}
  /\ ~ (exists d, forall this, OpenAi.getModel sane this = d)
  /\ tbl !! "toString" = None
  /\ Anthropic.id
       (Anthropic.getModel tbl "claude-3-5-sonnet-20241022" (asking "toString"))
     = "toString".
Proof.
  repeat split. intros [d Hd].
  pose proof (Hd {| OpenAi.options :=
                      {| apiModelId := None; openAiModelId := Some "gpt-4o";
                         includeStreamOptions := None |};
                    OpenAi.client := fun _ => [] |}) as H1.
  pose proof (Hd {| OpenAi.options :=
                      {| apiModelId := None; openAiModelId := Some "o1-mini";
                         includeStreamOptions := None |};
                    OpenAi.client := fun _ => [] |}) as H2.
  rewrite <- H2 in H1. discriminate H1.
Qed.

(** C9, amended: [getModel] is a total function of the options. Both
    Anthropic variants return the table's entry for the requested id when
    the id is present, not the empty string and a key of the table; they
    return the default id with its entry when the id is absent, the empty
    string, or neither a key of the table nor a name the table inherits from
    [Object.prototype]. The OpenAI handler returns the configured id, the
    empty string when there is none, with the fixed default model
    information. *)
Theorem C9_model_resolution tbl dflt sane opts client oclient :
  let this1 := {| Anthropic.options := opts; Anthropic.client := client |} in
  let this2 := {| AnthropicDup.options := opts; AnthropicDup.client := client |} in
  let this3 := {| OpenAi.options := opts; OpenAi.client := oclient |} in
  (forall id info,
     apiModelId opts = Some id -> id <> EmptyString -> tbl !! id = Some info ->
     Anthropic.getModel tbl dflt this1
       = {| Anthropic.id := id; Anthropic.info := info |}
     /\ AnthropicDup.getModel tbl dflt this2
        = {| AnthropicDup.id := id; AnthropicDup.info := info |})
  /\ (forall dinfo,
        tbl !! dflt = Some dinfo ->
        apiModelId opts = None \/ apiModelId opts = Some EmptyString
        \/ (exists id, apiModelId opts = Some id /\ tbl !! id = None
                       /\ Js.inherited_name id = false) ->
        Anthropic.getModel tbl dflt this1
          = {| Anthropic.id := dflt; Anthropic.info := dinfo |}
        /\ AnthropicDup.getModel tbl dflt this2
           = {| AnthropicDup.id := dflt; AnthropicDup.info := dinfo |})
  /\ OpenAi.getModel sane this3
     = {| OpenAi.id := match openAiModelId opts with
                       | Some id => id
                       | None => EmptyString
                       end;
          OpenAi.info := sane |}.
Proof.
  intros this1 this2 this3.
  unfold Anthropic.getModel, AnthropicDup.getModel, Js.has_property. simpl.
  split; [|split; [|done]].
  - intros id info -> Hne Hin.
    unfold Js.truthy_str. destruct (String.eqb_spec id EmptyString); [done|].
    simpl. rewrite bool_decide_eq_true_2 by (by rewrite Hin). simpl.
    by rewrite (lookup_total_correct _ _ _ Hin).
  - intros dinfo Hd. rewrite (lookup_total_correct _ _ _ Hd).
    intros [-> | [-> | (id & -> & Hnone & Hinh)]]; [done|done|].
    rewrite (bool_decide_eq_false_2 (is_Some (tbl !! id)));
      [|rewrite Hnone; by intros [? ?]].
    rewrite Hinh. by rewrite andb_false_r.
Qed.

Lemma C9_witness :
  let tbl : gmap string ModelInfo :=
    <[ "claude-3-opus-20240229" := {| maxTokens := Some 4096%Z |} ]>
      {[ "claude-3-5-sonnet-20241022" := {| maxTokens := Some 8192%Z |} ]} in
  let asking id :=
    {| apiModelId := Some id; openAiModelId := None;
       includeStreamOptions := None |} in
  Anthropic.getModel tbl "claude-3-5-sonnet-20241022"
    {| Anthropic.options := asking "claude-3-opus-20240229";
       Anthropic.client := serving [] |}
  = {| Anthropic.id := "claude-3-opus-20240229";
       Anthropic.info := {| maxTokens := Some 4096%Z |} |}
  /\ AnthropicDup.getModel tbl "claude-3-5-sonnet-20241022"
       {| AnthropicDup.options := asking "gpt-4o";
          AnthropicDup.client := serving [] |}
     = {| AnthropicDup.id := "claude-3-5-sonnet-20241022";
          AnthropicDup.info := {| maxTokens := Some 8192%Z |} |}.
Proof.
  intros tbl asking. split.
  - pose proof (C9_model_resolution tbl "claude-3-5-sonnet-20241022"
                  {| maxTokens := None |} (asking "claude-3-opus-20240229")
                  (serving []) (fun _ => [])) as H.
    cbv zeta in H. destruct H as [H _].
    apply (H "claude-3-opus-20240229" {| maxTokens := Some 4096%Z |});
      [reflexivity | discriminate | reflexivity].
  - pose proof (C9_model_resolution tbl "claude-3-5-sonnet-20241022"
                  {| maxTokens := None |} (asking "gpt-4o")
                  (serving []) (fun _ => [])) as H.
    cbv zeta in H. destruct H as [_ [H _]].
    apply (H {| maxTokens := Some 8192%Z |}); [reflexivity|].
    right. right. exists "gpt-4o".
    split; [reflexivity|]. split; reflexivity.
Defined.

(** * Further properties *)

Import Observe.

(** ** What the OpenAI decoder delivers *)

Lemma openai_chunk_received c :
  received_text (OpenAi.chunk_events c) = first_content c.
Proof.
  unfold OpenAi.chunk_events, OpenAi.on_chunk, first_content. simpl.
  rewrite received_text_app.
  destruct (OpenAi.usage c); simpl; rewrite str_app_nil_r;
    (destruct (OpenAi.choices c) as [|ch ?]; simpl; [done|]);
    (destruct (OpenAi.content (OpenAi.delta ch)) as [s|]; simpl; [|done]);
    unfold Js.truthy_str;
    (destruct (String.eqb_spec s EmptyString) as [->|]; simpl;
       [done|apply str_app_nil_r]).
Qed.

(** X1: the OpenAI decoder loses no text and adds none: the concatenation of
    the [TextEvent]s it yields is the concatenation of the [delta.content] of
    the first choice of every chunk, whatever else the chunks carry. *)
Theorem X1_openai_text_fidelity stream :
  received_text (OpenAi.decode stream) = sent_text stream.
Proof.
  rewrite openai_decode_flat.
  induction stream as [|c rest IH]; [done|]. simpl.
  by rewrite received_text_app, openai_chunk_received, IH.
Qed.

(** ** Empty text *)

Lemma anthropic_chunk_nonempty v c :
  Forall nonempty_text (Anthropic.on_chunk v c).2.
Proof.
  destruct c as [u|n| |i [t|? ?]|i [t|?]|i|?]; simpl; try done.
  - by destruct (n =? 0)%N.
  - unfold Js.truthy_str.
    destruct (String.eqb_spec (Anthropic.accumulatedText v) EmptyString);
      simpl; [done|]. by repeat constructor.
Qed.

(** X2: neither the OpenAI handler nor the first Anthropic variant ever
    yields a [TextEvent] with the empty text. *)
Theorem X2_no_empty_text :
  (forall stream, Forall nonempty_text (OpenAi.decode stream))
  /\ (forall stream, Forall nonempty_text (Anthropic.decode stream)).
Proof.
  split.
  - intros stream. rewrite openai_decode_flat.
    induction stream as [|c rest IH]; simpl; [done|].
    apply Forall_app. split; [|done].
    unfold OpenAi.chunk_events, OpenAi.on_chunk. simpl.
    apply Forall_app. split.
    + destruct (OpenAi.delta <$> head (OpenAi.choices c)) as [d|]; simpl; [|done].
      destruct (OpenAi.content d) as [s|]; [|done].
      unfold Js.truthy_str.
      destruct (String.eqb_spec s EmptyString); simpl; [done|].
      by repeat constructor.
    + destruct (OpenAi.usage c); by repeat constructor.
  - intros stream. rewrite anthropic_decode_eq.
    apply Forall_app. split; [|by repeat constructor].
    generalize Anthropic.initial.
    induction stream as [|c rest IH]; intros v; [done|].
    rewrite for_await_cons. simpl.
    apply Forall_app. split; [apply anthropic_chunk_nonempty|apply IH].
Qed.

(** ** Events already yielded *)

Lemma filter_text_all (l : ApiStream) :
  forallb is_text l = true -> List.filter is_text l = l.
Proof.
  induction l as [|e l IH]; [done|]. simpl.
  intros [He Hl]%andb_true_iff. rewrite He. by rewrite IH.
Qed.

(** X3: later chunks never change what was yielded for earlier ones. For the
    OpenAI handler and the second Anthropic variant the events of a stream
    continued are the events of the stream followed by the events of the
    continuation. The first variant ends every sequence with its
    [UsageEvent], which depends on the whole stream, but the [TextEvent]s of
    a stream are the first [TextEvent]s of the stream continued. *)
Theorem X3_yielded_events_stay (s1 s2 : list StreamEvent)
    (o1 o2 : list OpenAi.ChatCompletionChunk) :
  OpenAi.decode (o1 ++ o2) = OpenAi.decode o1 ++ OpenAi.decode o2
  /\ AnthropicDup.decode (s1 ++ s2)
     = AnthropicDup.decode s1 ++ AnthropicDup.decode s2
  /\ exists later,
       List.filter is_text (Anthropic.decode (s1 ++ s2))
         = List.filter is_text (Anthropic.decode s1) ++ later.
Proof.
  split; [|split].
  - by rewrite !openai_decode_flat, flat_map_app.
  - by rewrite !dup_decode_flat, flat_map_app.
  - rewrite !anthropic_decode_eq, (for_await_app Anthropic.on_chunk).
    cbn [snd]. rewrite !List.filter_app. simpl.
    rewrite !app_nil_r.
    rewrite !filter_text_all by apply anthropic_loop_text.
    by eexists.
Qed.

(** ** What the second Anthropic variant returns for tracing *)

Lemma dup_fullText_grows stream : forall v,
  AnthropicDup.fullText (Loop.for_await AnthropicDup.on_chunk v stream).1
    = AnthropicDup.fullText v
        +:+ received_text (Loop.for_await AnthropicDup.on_chunk v stream).2.
Proof.
  induction stream as [|c rest IH]; intros v.
  - simpl. by rewrite str_app_nil_r.
  - rewrite for_await_cons. cbn [fst snd].
    rewrite IH, received_text_app, <- str_app_assoc. f_equal.
    destruct c as [u|n| |i [t|? ?]|i [t|?]|i|?]; simpl;
      rewrite ?str_app_nil_r; try done.
    destruct (0 <? i)%N; simpl; rewrite ?str_app_nil_r, ?str_app_assoc; done.
Qed.

(** X4: the completion the second variant hands to the tracer is faithful
    to what the caller received: its content is the concatenation of the
    yielded [TextEvent]s, its model is the resolved model id, and the events
    the generator yields are the events of [createMessage]. *)
Theorem X4_traced_completion tbl dflt this sys (msgs : list MessageParam) :
  let g := AnthropicDup.traced_body tbl dflt this (sys, msgs) in
  AnthropicDup.out_content (returned g) = received_text (yields g)
  /\ yields g = AnthropicDup.createMessage tbl dflt this sys msgs
  /\ AnthropicDup.in_model (returned g)
     = AnthropicDup.id (AnthropicDup.getModel tbl dflt this)
  /\ AnthropicDup.out_usage (returned g)
     = AnthropicDup.usageData
         (AnthropicDup.terminal (AnthropicDup.open_stream tbl dflt this sys msgs)).
Proof.
  unfold AnthropicDup.createMessage, traceableMethod, yield_star,
    AnthropicDup.traced_body, AnthropicDup.terminal. simpl.
  pose proof (dup_fullText_grows
                (AnthropicDup.open_stream tbl dflt this sys msgs)
                AnthropicDup.initial) as Hfull.
  destruct (Loop.for_await AnthropicDup.on_chunk AnthropicDup.initial
              (AnthropicDup.open_stream tbl dflt this sys msgs)) as [v out].
  simpl in *. by rewrite Hfull.
Qed.

(** ** The usage events of the second variant *)

(** X5: the [UsageEvent]s the second variant yields are the snapshots of the
    [message_start] chunks, in order, and nothing else: the output count of a
    [message_delta] chunk never reaches the caller, and taking the
    [message_delta] chunks out of a stream changes no event. *)
Theorem X5_dup_usage_events stream :
  List.filter is_usage (AnthropicDup.decode stream) = snapshot <$> starts stream
  /\ AnthropicDup.decode
       (List.filter (fun c => negb (is_message_delta c)) stream)
     = AnthropicDup.decode stream.
Proof.
  rewrite !dup_decode_flat. split.
  - induction stream as [|c rest IH]; [done|]. simpl.
    rewrite List.filter_app, fmap_app, IH. f_equal.
    destruct c as [u|n| |i [t|? ?]|i [t|?]|i|?];
      unfold AnthropicDup.chunk_events; simpl; try done.
    + unfold snapshot. by rewrite !or_num_zero, !or_undefined_visible.
    + by destruct (0 <? i)%N.
  - induction stream as [|c rest IH]; [done|]. simpl.
    destruct c as [u|n| |i [t|? ?]|i [t|?]|i|?]; simpl; by rewrite IH.
Qed.

(** ** The usage account of the first variant *)

Lemma anthropic_usage_no_start stream : forall v,
  existsb is_message_start stream = false ->
  Anthropic.usage (Loop.for_await Anthropic.on_chunk v stream).1
    = {| Anthropic.inputTokens := Anthropic.inputTokens (Anthropic.usage v);
         Anthropic.outputTokens :=
           (Anthropic.outputTokens (Anthropic.usage v) + delta_sum stream)%N;
         Anthropic.cacheWriteTokens := Anthropic.cacheWriteTokens (Anthropic.usage v);
         Anthropic.cacheReadTokens := Anthropic.cacheReadTokens (Anthropic.usage v) |}.
Proof.
  induction stream as [|c rest IH]; intros v Hno.
  - simpl. rewrite N.add_0_r. by destruct (Anthropic.usage v).
  - simpl in Hno. apply orb_false_iff in Hno as [Hc Hrest].
    rewrite for_await_cons. cbn [fst]. rewrite IH by done.
    destruct c as [u|n| |i [t|? ?]|i [t|?]|i|?]; try done.
    simpl. destruct (N.eqb_spec n 0) as [->|Hn]; simpl; [done|].
    f_equal. lia.
Qed.

(** X6: the usage the first variant reports at the end is that of the last
    [message_start]: its input count, its cache counts as far as visible, and
    its output count plus the sum of the output counts of all the
    [message_delta] chunks that follow. Without any [message_start] the
    counts start from 0. *)
Theorem X6_anthropic_usage_account :
  (forall before u after,
     existsb is_message_start after = false ->
     List.filter is_usage (Anthropic.decode (before ++ message_start u :: after))
       = [UsageEvent (input_tokens u) (output_tokens u + delta_sum after)
                     (visible (cache_creation_input_tokens u))
                     (visible (cache_read_input_tokens u))])
  /\ (forall stream,
        existsb is_message_start stream = false ->
        List.filter is_usage (Anthropic.decode stream)
          = [UsageEvent 0 (delta_sum stream) None None]).
Proof.
  assert (Hloop : forall stream,
            List.filter is_usage
              (Loop.for_await Anthropic.on_chunk Anthropic.initial stream).2 = []).
  { intros stream.
    pose proof (anthropic_loop_text Anthropic.initial stream) as Htext.
    induction (Loop.for_await Anthropic.on_chunk Anthropic.initial stream).2
      as [|[t|? ? ? ?] l IH]; simpl in *; [done| |done]. by apply IH. }
  split.
  - intros before u after Hno.
    rewrite anthropic_decode_eq, List.filter_app, Hloop. simpl.
    unfold Anthropic.terminal.
    rewrite (for_await_app Anthropic.on_chunk), for_await_cons. cbn [fst].
    rewrite anthropic_usage_no_start by done. simpl.
    unfold Anthropic.final_usage. simpl.
    by rewrite !or_num_zero, !or_undefined_visible, !visible_idem.
  - intros stream Hno.
    rewrite anthropic_decode_eq, List.filter_app, Hloop. simpl.
    unfold Anthropic.terminal. by rewrite anthropic_usage_no_start.
Qed.

Lemma X6_witness :
  List.filter is_usage
    (Anthropic.decode
       ([message_stop] ++ message_start (start_usage 5 1)
          :: [message_delta 3; content_block_stop 0; message_delta 4]))
  = [UsageEvent 5 (1 + delta_sum [message_delta 3; content_block_stop 0;
                                  message_delta 4])
                (visible None) (visible None)]
  /\ List.filter is_usage (Anthropic.decode [message_delta 3; message_delta 4])
     = [UsageEvent 0 (delta_sum [message_delta 3; message_delta 4]) None None].
Proof.
  split.
  - apply (proj1 X6_anthropic_usage_account [message_stop] (start_usage 5 1)
             [message_delta 3; content_block_stop 0; message_delta 4]).
    reflexivity.
  - apply (proj2 X6_anthropic_usage_account [message_delta 3; message_delta 4]).
    reflexivity.
Defined.

(** ** When the first variant yields text *)

Lemma anthropic_chunk_text_count v c :
  length (Anthropic.on_chunk v c).2 <= if is_message_stop c then 1 else 0.
Proof.
  destruct c as [u|n| |i [t|? ?]|i [t|?]|i|?]; simpl; try lia.
  - destruct (n =? 0)%N; simpl; lia.
  - destruct (Js.truthy_str (Anthropic.accumulatedText v)); simpl; lia.
Qed.

Lemma anthropic_loop_text_count stream : forall v,
  length (Loop.for_await Anthropic.on_chunk v stream).2
    <= length (List.filter is_message_stop stream).
Proof.
  induction stream as [|c rest IH]; intros v; [done|].
  rewrite for_await_cons. cbn [snd]. rewrite length_app.
  specialize (IH (Anthropic.on_chunk v c).1).
  pose proof (anthropic_chunk_text_count v c) as Hc.
  simpl. destruct (is_message_stop c); simpl; lia.
Qed.

(** X7: the first variant yields text only when it reads [message_stop]: it
    yields at most one [TextEvent] per [message_stop] chunk, and for a stream
    without [message_stop] it yields its [UsageEvent] and no text at all,
    whatever text the chunks carried. *)
Theorem X7_text_only_at_message_stop :
  (forall stream,
     text_count (Anthropic.decode stream)
       <= length (List.filter is_message_stop stream))
  /\ (forall stream,
        existsb is_message_stop stream = false ->
        Anthropic.decode stream
          = [Anthropic.final_usage (Anthropic.usage (Anthropic.terminal stream))]).
Proof.
  split.
  - intros stream. unfold text_count.
    rewrite anthropic_decode_eq, List.filter_app. simpl. rewrite app_nil_r.
    rewrite filter_text_all by apply anthropic_loop_text.
    apply anthropic_loop_text_count.
  - intros stream Hno. rewrite anthropic_decode_eq.
    pose proof (anthropic_loop_text_count stream Anthropic.initial) as Hlen.
    replace (List.filter is_message_stop stream) with (@nil StreamEvent) in Hlen.
    + destruct (Loop.for_await Anthropic.on_chunk Anthropic.initial stream).2;
        [done|simpl in Hlen; lia].
    + clear Hlen. induction stream as [|c rest IH]; [done|].
      simpl in Hno. apply orb_false_iff in Hno as [Hc Hrest].
      simpl. rewrite Hc. by apply IH.
Qed.

Lemma X7_witness :
  Anthropic.decode
    [message_start (start_usage 5 1); content_block_start 0 (TextBlock "A");
     content_block_delta 0 (TextDelta "!"); content_block_stop 0]
  = [Anthropic.final_usage
       (Anthropic.usage
          (Anthropic.terminal
             [message_start (start_usage 5 1);
              content_block_start 0 (TextBlock "A");
              content_block_delta 0 (TextDelta "!"); content_block_stop 0]))].
Proof.
  apply (proj2 X7_text_only_at_message_stop). reflexivity.
Defined.

(** ** Text the first variant has yielded is never taken back *)

Lemma anthropic_chunk_accumulates v c :
  (exists x, Anthropic.accumulatedText (Anthropic.on_chunk v c).1
             = Anthropic.accumulatedText v +:+ x)
  /\ ((Anthropic.on_chunk v c).2 = []
      \/ ((Anthropic.on_chunk v c).2 = [TextEvent (Anthropic.accumulatedText v)]
          /\ (Anthropic.on_chunk v c).1 = v)).
Proof.
  destruct c as [u|n| |i [t|? ?]|i [t|?]|i|?]; simpl;
    try (split; [exists EmptyString; by rewrite str_app_nil_r|by left]).
  - destruct (n =? 0)%N; simpl;
      (split; [exists EmptyString; by rewrite str_app_nil_r|by left]).
  - split; [exists EmptyString; by rewrite str_app_nil_r|].
    destruct (Js.truthy_str (Anthropic.accumulatedText v)); [by right|by left].
  - split; [|by left].
    destruct (Anthropic.isFirstBlock v); simpl;
      [exists EmptyString; by rewrite str_app_nil_r|by exists Js.LF].
  - split; [|by left]. by eexists.
Qed.

Lemma anthropic_loop_accumulates stream : forall v,
  exists x, Anthropic.accumulatedText (Loop.for_await Anthropic.on_chunk v stream).1
            = Anthropic.accumulatedText v +:+ x.
Proof.
  induction stream as [|c rest IH]; intros v.
  - exists EmptyString. simpl. by rewrite str_app_nil_r.
  - rewrite for_await_cons. cbn [fst].
    destruct (IH (Anthropic.on_chunk v c).1) as [y ->].
    destruct (anthropic_chunk_accumulates v c) as [[x ->] _].
    exists (x +:+ y). by rewrite str_app_assoc.
Qed.

Lemma anthropic_loop_extends stream : forall v k t,
  (Loop.for_await Anthropic.on_chunk v stream).2 !! k = Some (TextEvent t) ->
  exists x, t = Anthropic.accumulatedText v +:+ x.
Proof.
  induction stream as [|c rest IH]; intros v k t Hk; [done|].
  rewrite for_await_cons in Hk. cbn [snd] in Hk.
  destruct (anthropic_chunk_accumulates v c) as [[x Hx] [Hout|[Hout Hv]]];
    rewrite Hout in Hk.
  - destruct (IH (Anthropic.on_chunk v c).1 k t Hk) as [y ->]. rewrite Hx.
    exists (x +:+ y). by rewrite str_app_assoc.
  - destruct k as [|k]; simpl in Hk.
    + injection Hk as <-. exists EmptyString. by rewrite str_app_nil_r.
    + rewrite Hv in Hk. by apply (IH v k t).
Qed.

Lemma anthropic_loop_chain stream : forall v i j t1 t2,
  i <= j ->
  (Loop.for_await Anthropic.on_chunk v stream).2 !! i = Some (TextEvent t1) ->
  (Loop.for_await Anthropic.on_chunk v stream).2 !! j = Some (TextEvent t2) ->
  exists x, t2 = t1 +:+ x.
Proof.
  induction stream as [|c rest IH]; intros v i j t1 t2 Hij Hi Hj; [done|].
  rewrite for_await_cons in Hi, Hj. cbn [snd] in Hi, Hj.
  destruct (anthropic_chunk_accumulates v c) as [_ [Hout|[Hout Hv]]];
    rewrite Hout in Hi, Hj.
  - by apply (IH (Anthropic.on_chunk v c).1 i j).
  - rewrite Hv in Hi, Hj.
    destruct i as [|i]; simpl in Hi.
    + injection Hi as <-.
      destruct j as [|j]; simpl in Hj.
      * injection Hj as <-. exists EmptyString. by rewrite str_app_nil_r.
      * by apply (anthropic_loop_extends rest v j).
    + destruct j as [|j]; [lia|]. simpl in Hj.
      apply (IH v i j); [lia|done|done].
Qed.

(** X8: the first variant never resets the text it has accumulated: of two
    [TextEvent]s of one sequence, the text of the later one starts with the
    whole text of the earlier one. *)
Theorem X8_text_is_cumulative stream i j t1 t2 :
  i <= j ->
  Anthropic.decode stream !! i = Some (TextEvent t1) ->
  Anthropic.decode stream !! j = Some (TextEvent t2) ->
  exists x, t2 = t1 +:+ x.
Proof.
  intros Hij Hi Hj. rewrite anthropic_decode_eq in Hi, Hj.
  assert (Hin : forall k t,
            ((Loop.for_await Anthropic.on_chunk Anthropic.initial stream).2
               ++ [Anthropic.final_usage
                     (Anthropic.usage (Anthropic.terminal stream))]) !! k
              = Some (TextEvent t) ->
            (Loop.for_await Anthropic.on_chunk Anthropic.initial stream).2 !! k
              = Some (TextEvent t)).
  { intros k t Hk. apply lookup_app_Some in Hk as [Hk|[_ Hk]]; [done|].
    by apply list_lookup_singleton_Some in Hk as [_ ?]. }
  apply Hin in Hi, Hj.
  by apply (anthropic_loop_chain stream Anthropic.initial i j).
Qed.

Lemma X8_witness :
  exists x, "A" +:+ Js.LF +:+ "B" = "A" +:+ x.
Proof.
  apply (X8_text_is_cumulative
           [content_block_start 0 (TextBlock "A"); content_block_stop 0;
            message_stop;
            content_block_start 0 (TextBlock "B"); content_block_stop 0;
            message_stop] 0 1);
    [lia | reflexivity | reflexivity].
Defined.

(** ** Chunks the Anthropic decoders pass over *)

Lemma ignorable_filter_loop {V : Type}
    (body : V -> StreamEvent -> V * ApiStream) :
  (forall v c, ignorable c = true -> body v c = (v, [])) ->
  forall stream v,
    Loop.for_await body v (List.filter (fun c => negb (ignorable c)) stream)
      = Loop.for_await body v stream.
Proof.
  intros Hskip stream. induction stream as [|c rest IH]; intros v; [done|].
  simpl List.filter. destruct (ignorable c) eqn:Hc; simpl negb; cbv iota.
  - rewrite IH, (for_await_cons body v c rest), (Hskip v c Hc). simpl.
    by destruct (Loop.for_await body v rest).
  - by rewrite !for_await_cons, IH.
Qed.

(** X9: chunks of a type the loops have no case for, the start of a
    [tool_use] block and [input_json_delta] chunks are passed over by both
    Anthropic variants: with or without them a stream decodes to the same
    events. *)
Theorem X9_unhandled_chunks_ignored stream :
  Anthropic.decode (List.filter (fun c => negb (ignorable c)) stream)
    = Anthropic.decode stream
  /\ AnthropicDup.decode (List.filter (fun c => negb (ignorable c)) stream)
     = AnthropicDup.decode stream.
Proof.
  split.
  - unfold Anthropic.decode. rewrite ignorable_filter_loop; [done|].
    by intros v [u|n| |i [t|? ?]|i [t|?]|i|?].
  - unfold AnthropicDup.decode. rewrite ignorable_filter_loop; [done|].
    by intros v [u|n| |i [t|? ?]|i [t|?]|i|?].
Qed.

(** ** Complete messages *)

(** X10: for a complete message made of text blocks the first variant
    yields the whole text once, as one [TextEvent] (none when the text is
    empty), the blocks joined by single line feeds, and then one
    [UsageEvent] whose output count is the sum of the counts of
    [message_start] and [message_delta]. *)
Theorem X10_anthropic_complete_message u bs out :
  Anthropic.decode (message_events u bs out)
    = (if String.eqb (joined_text bs) EmptyString then []
       else [TextEvent (joined_text bs)])
      ++ [UsageEvent (input_tokens u) (output_tokens u + out)
                     (visible (cache_creation_input_tokens u))
                     (visible (cache_read_input_tokens u))].
Proof.
  rewrite anthropic_decode_message, !or_undefined_visible.
  unfold Js.truthy_str. by destruct (String.eqb (joined_text bs) EmptyString).
Qed.

Lemma dup_block_pieces i b :
  flat_map AnthropicDup.chunk_events (block_events i b) = block_pieces i b.
Proof.
  unfold block_events, block_pieces.
  change (AnthropicDup.chunk_events
            (content_block_start (N.of_nat i) (TextBlock (inline b)))
          ++ flat_map AnthropicDup.chunk_events
               (((fun d => content_block_delta (N.of_nat i) (TextDelta d))
                   <$> deltas b) ++ [content_block_stop (N.of_nat i)])
          = (if (i =? 0)%nat then [] else [TextEvent Js.LF])
              ++ TextEvent (inline b) :: (TextEvent <$> deltas b)).
  rewrite flat_map_app. simpl (flat_map _ [_]). rewrite app_nil_r.
  assert (Hds : forall ds : list string,
            flat_map AnthropicDup.chunk_events
              ((fun d => content_block_delta (N.of_nat i) (TextDelta d)) <$> ds)
            = TextEvent <$> ds).
  { induction ds as [|d ds IH]; [done|]. rewrite !fmap_cons. simpl.
    by rewrite IH. }
  rewrite Hds. unfold AnthropicDup.chunk_events. simpl.
  destruct i as [|i]; simpl; by rewrite <- ?app_assoc.
Qed.

(** X11: for a complete message made of text blocks the second variant
    yields the snapshot of [message_start] first and then, block after block,
    a line feed before every block but the first, the inline text of the
    block and each of its deltas, one [TextEvent] each; the count of
    [message_delta] shows in no event. *)
Theorem X11_dup_complete_message u bs out :
  AnthropicDup.decode (message_events u bs out)
    = snapshot u :: blocks_pieces 0 bs.
Proof.
  rewrite dup_decode_message. unfold snapshot.
  rewrite !or_undefined_visible. f_equal.
  generalize 0. induction bs as [|b rest IH]; intros i; [done|].
  change (blocks_events i (b :: rest))
    with (block_events i b ++ blocks_events (S i) rest).
  rewrite flat_map_app, dup_block_pieces, IH. done.
Qed.

(** ** Entry point, header and model of an Anthropic request *)

(** X12: in both variants the [anthropic-beta] header goes with exactly the
    calls to the prompt caching entry point, and that entry point is called
    for exactly the four model ids of the [switch]; the plain entry point is
    called without request options. In the second variant the inner
    [switch], which could leave the header out, never does. *)
Theorem X12_beta_header tbl dflt opts client sys (msgs : list MessageParam) :
  let r1 := Anthropic.request tbl dflt
              {| Anthropic.options := opts; Anthropic.client := client |}
              sys msgs in
  let r2 := AnthropicDup.request tbl dflt
              {| AnthropicDup.options := opts; AnthropicDup.client := client |}
              sys msgs in
  (r1.1.1 = beta_promptCaching_messages_create
     <-> model r1.1.2 ∈ Anthropic.cache_models)
  /\ (r1.1.1 = beta_promptCaching_messages_create <-> r1.2 = Some beta_header)
  /\ (r1.1.1 = messages_create <-> r1.2 = None)
  /\ (r2.1.1 = beta_promptCaching_messages_create
        <-> model r2.1.2 ∈ AnthropicDup.cache_models)
  /\ (r2.1.1 = beta_promptCaching_messages_create <-> r2.2 = Some beta_header)
  /\ (r2.1.1 = messages_create <-> r2.2 = None).
Proof.
  intros r1 r2. subst r1 r2.
  unfold Anthropic.request, AnthropicDup.request, AnthropicDup.request_options.
  repeat case_bool_decide; simpl; repeat split; intros; try done.
Qed.

(** X13: the descriptor of both variants is consistent for every id that
    is not merely a name the table inherits: when the default model id is a
    key of the table and the requested id, if there is one, is a key of the
    table or not an inherited name, the information [getModel] returns is the
    table's entry for the id it returns; and that id is the [model] of the
    request, so such a request never names a model the table does not
    list. *)
Theorem X13_descriptor_consistent tbl dflt opts client sys
    (msgs : list MessageParam) :
  is_Some (tbl !! dflt) ->
  (forall id, apiModelId opts = Some id -> tbl !! id = None ->
              Js.inherited_name id = false) ->
  let this1 := {| Anthropic.options := opts; Anthropic.client := client |} in
  let this2 := {| AnthropicDup.options := opts; AnthropicDup.client := client |} in
  let d1 := Anthropic.getModel tbl dflt this1 in
  let d2 := AnthropicDup.getModel tbl dflt this2 in
  tbl !! Anthropic.id d1 = Some (Anthropic.info d1)
  /\ tbl !! AnthropicDup.id d2 = Some (AnthropicDup.info d2)
  /\ model (Anthropic.request tbl dflt this1 sys msgs).1.2 = Anthropic.id d1
  /\ model (AnthropicDup.request tbl dflt this2 sys msgs).1.2 = AnthropicDup.id d2.
Proof.
  intros [i0 Hdflt] Hown this1 this2 d1 d2.
  assert (Hreq : model (Anthropic.request tbl dflt this1 sys msgs).1.2
                   = Anthropic.id d1
                 /\ model (AnthropicDup.request tbl dflt this2 sys msgs).1.2
                    = AnthropicDup.id d2).
  { unfold Anthropic.request, AnthropicDup.request.
    split; case_bool_decide; done. }
  destruct Hreq as [Hr1 Hr2]. repeat split; try done;
    subst d1 d2;
    unfold Anthropic.getModel, AnthropicDup.getModel, Js.has_property; simpl;
    (destruct (apiModelId opts) as [m|]; simpl;
       [|by rewrite (lookup_total_correct _ _ _ Hdflt)]);
    (destruct (Js.truthy_str m); simpl;
       [|by rewrite (lookup_total_correct _ _ _ Hdflt)]);
    (destruct (tbl !! m) as [i|] eqn:Hm;
       [rewrite bool_decide_eq_true_2 by done; simpl;
        by rewrite Hm, (lookup_total_correct _ _ _ Hm)|]);
    rewrite (Hown m eq_refl Hm), orb_false_r;
    rewrite bool_decide_eq_false_2 by (by intros [? ?]); simpl;
    by rewrite (lookup_total_correct _ _ _ Hdflt).
Qed.

Lemma X13_witness :
  let tbl : gmap string ModelInfo :=
    {[ "claude-3-opus-20240229" := {| maxTokens := Some 4096%Z |} ]} in
  let this1 :=
    {| Anthropic.options :=
         {| apiModelId := Some "gpt-4o"; openAiModelId := None;
            includeStreamOptions := None |};
       Anthropic.client := serving [] |} in
  tbl !! Anthropic.id (Anthropic.getModel tbl "claude-3-opus-20240229" this1)
    = Some (Anthropic.info (Anthropic.getModel tbl "claude-3-opus-20240229" this1)).
Proof.
  intros tbl this1.
  apply (X13_descriptor_consistent tbl "claude-3-opus-20240229"
           {| apiModelId := Some "gpt-4o"; openAiModelId := None;
              includeStreamOptions := None |}
           (serving []) EmptyString []).
  - exists {| maxTokens := Some 4096%Z |}. reflexivity.
  - intros id [= <-] _. reflexivity.
Defined.

(** ** The client of the OpenAI handler *)

Lemma endsWith_spec s suffix :
  Construct.endsWith s suffix = true <-> exists p, s = p +:+ suffix.
Proof.
  induction s as [|a s IH].
  - change (Construct.endsWith EmptyString suffix)
      with (if String.eqb EmptyString suffix then true else false).
    destruct (String.eqb_spec EmptyString suffix) as [<-|Hne].
    + split; [intros _; by exists EmptyString|done].
    + split; [done|]. intros [[|b p] Hp].
      * destruct Hne. exact Hp.
      * discriminate Hp.
  - change (Construct.endsWith (String a s) suffix)
      with (if String.eqb (String a s) suffix then true
            else Construct.endsWith s suffix).
    destruct (String.eqb_spec (String a s) suffix) as [<-|Hne].
    + split; [intros _; by exists EmptyString|done].
    + rewrite IH. split.
      * intros [p ->]. by exists (String a p).
      * intros [[|b p] Hp].
        -- destruct Hne. exact Hp.
        -- change (String a s = String b (p +:+ suffix)) in Hp.
           injection Hp as _ ->. by exists p.
Qed.

Lemma azure_host_spec host :
  Construct.azure_host host = true
  <-> host = "azure.com" \/ exists p, host = p +:+ ".azure.com".
Proof.
  unfold Construct.azure_host.
  rewrite orb_true_iff, endsWith_spec.
  by destruct (String.eqb_spec host "azure.com"); split; intros [?|?]; auto.
Qed.

(** X14: the constructor of the OpenAI handler throws when
    [initializeLangSmith] throws or the platform rejects the base URL, which
    is the empty string when none is configured. Otherwise it builds an Azure
    client exactly when the host of the URL is [azure.com] or ends with
    [.azure.com], so a host that merely ends with [azure.com] gets the plain
    client; either constructor of the SDK receives the configured base URL
    and key, the Azure one also the configured API version, or the default
    version when none or the empty one is configured; the new client goes
    through [wrapOpenAIClient], and a throw of the SDK constructor or of the
    wrapper is the throw of the constructor. *)
Theorem X14_openai_client (Client : Type) init url_host
    (new_azure : option string -> option string -> string -> option Client)
    (new_plain : option string -> option string -> option Client)
    (wrap : Client -> option Client) dflt_version
    (o : Construct.ConnectionOptions) :
  let url := match Construct.openAiBaseUrl o with
             | Some u => u
             | None => EmptyString
             end in
  let built := Construct.new_OpenAiHandler Client init url_host new_azure
                 new_plain wrap dflt_version o in
  (init = None \/ url_host url = None -> built = None)
  /\ (forall host,
        init = Some tt -> url_host url = Some host ->
        ((host = "azure.com" \/ exists p, host = p +:+ ".azure.com") ->
         built = new_azure (Construct.openAiBaseUrl o) (Construct.openAiApiKey o)
                   (Construct.apiVersion dflt_version o) ≫= wrap)
        /\ (~ (host = "azure.com" \/ exists p, host = p +:+ ".azure.com") ->
            built = new_plain (Construct.openAiBaseUrl o)
                      (Construct.openAiApiKey o) ≫= wrap))
  /\ (forall v,
        Construct.azureApiVersion o = Some v -> v <> EmptyString ->
        Construct.apiVersion dflt_version o = v)
  /\ (Construct.azureApiVersion o = None
      \/ Construct.azureApiVersion o = Some EmptyString ->
      Construct.apiVersion dflt_version o = dflt_version).
Proof.
  intros url built. subst built. unfold Construct.new_OpenAiHandler.
  change (Js.nullish (Construct.openAiBaseUrl o) EmptyString) with url.
  split; [|split; [|split]].
  - intros [-> | Hurl]; [done|]. rewrite Hurl. by destruct init.
  - intros host -> ->. pose proof (azure_host_spec host) as Hspec.
    destruct (Construct.azure_host host); split; try done.
    + intros Hno. destruct Hno. by apply Hspec.
    + intros Hyes. apply Hspec in Hyes. discriminate Hyes.
  - intros v Hv Hne. unfold Construct.apiVersion, Construct.or_default.
    rewrite Hv. unfold Js.truthy_str.
    by destruct (String.eqb_spec v EmptyString).
  - unfold Construct.apiVersion, Construct.or_default.
    by intros [-> | ->].
Qed.

Lemma X14_witness :
  let o := {| Construct.openAiBaseUrl := Some "https://x.openai.azure.com/v1";
              Construct.openAiApiKey := Some "k";
              Construct.azureApiVersion := Some "2023-05-15" |} in
  Construct.new_OpenAiHandler string (Some tt)
    (fun _ => Some "x.openai.azure.com")
    (fun _ _ v => Some ("azure " +:+ v)) (fun _ _ => Some "plain")
    (fun c => Some c) "2024-08-01" o
  = Some "azure 2023-05-15".
Proof.
  intros o.
  pose proof (X14_openai_client string (Some tt)
                (fun _ => Some "x.openai.azure.com")
                (fun _ _ v => Some ("azure " +:+ v)) (fun _ _ => Some "plain")
                (fun c => Some c) "2024-08-01" o) as H.
  cbv zeta in H. destruct H as (_ & Hhost & Hversion & _).
  destruct (Hhost "x.openai.azure.com" eq_refl eq_refl) as [Hazure _].
  rewrite Hazure.
  - rewrite (Hversion "2023-05-15" eq_refl); [reflexivity|discriminate].
  - right. exists "x.openai". reflexivity.
Defined.

(** ** The two indices of the cache policy *)

Lemma userMsgIndices_length msgs :
  length (Anthropic.userMsgIndices msgs) = user_count msgs.
Proof.
  induction msgs as [|m msgs IH] using rev_ind; [done|].
  rewrite userMsgIndices_snoc, length_app, IH. unfold user_count.
  rewrite List.filter_app, length_app. simpl. by destruct (is_user m).
Qed.

Lemma filter_drop_length {A} (f : A -> bool) (l : list A) n :
  length (List.filter f (drop n l)) <= length (List.filter f l).
Proof.
  revert n. induction l as [|x l IH]; intros [|n]; simpl; try lia.
  specialize (IH n). destruct (f x); simpl; lia.
Qed.

Lemma users_after_antitone msgs i j :
  i <= j -> users_after msgs j <= users_after msgs i.
Proof.
  intros Hij. unfold users_after.
  replace (drop (S j) msgs) with (drop (j - i) (drop (S i) msgs)).
  - apply filter_drop_length.
  - rewrite drop_drop. f_equal. lia.
Qed.

(** X15: the two indices the cache policy computes. [lastUserMsgIndex] is
    -1 exactly for a conversation without user message, and
    [secondLastMsgUserIndex] is -1 exactly when there are fewer than two;
    otherwise each is the position of a user message of the conversation,
    and the second-to-last lies strictly before the last. *)
Theorem X15_user_indices (msgs : list MessageParam) :
  let last := Anthropic.lastUserMsgIndex msgs in
  let second := Anthropic.secondLastMsgUserIndex msgs in
  (last = (-1)%Z <-> user_count msgs = 0)
  /\ (second = (-1)%Z <-> user_count msgs < 2)
  /\ (last = (-1)%Z
      \/ exists i m, last = Z.of_nat i /\ msgs !! i = Some m /\ is_user m = true)
  /\ (second = (-1)%Z
      \/ exists i m, second = Z.of_nat i /\ msgs !! i = Some m
                     /\ is_user m = true /\ (second < last)%Z).
Proof.
  intros last second. subst last second.
  unfold Anthropic.lastUserMsgIndex, Anthropic.secondLastMsgUserIndex, Js.index.
  rewrite <- (userMsgIndices_length msgs).
  pose proof (userMsgIndices_lookup msgs) as Hlook.
  set (idx := Anthropic.userMsgIndices msgs) in *.
  assert (Hlast : forall n, length idx = S n ->
            exists i, idx !! n = Some i
              /\ Js.nullish (Z.of_nat <$>
                   (if (Z.of_nat (length idx) - 1 <? 0)%Z then None
                    else idx !! Z.to_nat (Z.of_nat (length idx) - 1))) (-1)%Z
                 = Z.of_nat i).
  { intros n Hn.
    destruct (lookup_lt_is_Some_2 idx n) as [i Hi]; [lia|].
    exists i. split; [done|].
    destruct (Z.ltb_spec (Z.of_nat (length idx) - 1) 0); [lia|].
    replace (Z.to_nat (Z.of_nat (length idx) - 1)) with n by lia.
    by rewrite Hi. }
  assert (Hsecond : forall n, length idx = S (S n) ->
            exists i, idx !! n = Some i
              /\ Js.nullish (Z.of_nat <$>
                   (if (Z.of_nat (length idx) - 2 <? 0)%Z then None
                    else idx !! Z.to_nat (Z.of_nat (length idx) - 2))) (-1)%Z
                 = Z.of_nat i).
  { intros n Hn.
    destruct (lookup_lt_is_Some_2 idx n) as [i Hi]; [lia|].
    exists i. split; [done|].
    destruct (Z.ltb_spec (Z.of_nat (length idx) - 2) 0); [lia|].
    replace (Z.to_nat (Z.of_nat (length idx) - 2)) with n by lia.
    by rewrite Hi. }
  destruct (length idx) as [|[|n]] eqn:Hlen.
  - repeat split; try done; try lia; by left.
  - destruct (Hlast 0 eq_refl) as (i & Hi & ->).
    destruct (Hlook 0 i Hi) as [(m & Hm & Hu) _].
    repeat split; try done; try lia.
    + right. by exists i, m.
    + by left.
  - destruct (Hlast (S n) eq_refl) as (i & Hi & ->).
    destruct (Hsecond n eq_refl) as (i2 & Hi2 & ->).
    destruct (Hlook (S n) i Hi) as [(m & Hm & Hu) Hc].
    destruct (Hlook n i2 Hi2) as [(m2 & Hm2 & Hu2) Hc2].
    repeat split; try done; try lia.
    + right. by exists i, m.
    + right. exists i2, m2. repeat split; try done.
      destruct (Nat.lt_ge_cases i2 i) as [?|Hge]; [lia|].
      pose proof (users_after_antitone msgs i i2 Hge). lia.
Qed.

(** ** How many cache directives a request carries *)

Lemma filter_imap_none {A B} (keep : B -> bool) (l : list A) :
  forall (f : nat -> A -> B),
    (forall j x, l !! j = Some x -> keep (f j x) = false) ->
    List.filter keep (imap f l) = [].
Proof.
  induction l as [|x l IH]; intros f Hf; [done|].
  rewrite imap_cons. simpl. rewrite (Hf 0 x eq_refl).
  apply IH. intros j y Hj. by apply (Hf (S j)).
Qed.

Lemma directives_as_is m : directives (as_is m) = 0.
Proof.
  unfold directives, as_is. simpl.
  destruct (Api.content m) as [s|parts]; simpl; [done|].
  by induction parts as [|p parts IH].
Qed.

Lemma directives_mark last second m i :
  directives (Anthropic.mark_message last second m i)
    = if ((Z.of_nat i =? last)%Z || (Z.of_nat i =? second)%Z) && has_parts m
      then 1 else 0.
Proof.
  unfold Anthropic.mark_message.
  destruct ((Z.of_nat i =? last)%Z || (Z.of_nat i =? second)%Z); simpl;
    [|apply directives_as_is].
  unfold directives, has_parts. simpl.
  destruct (Api.content m) as [s|parts]; simpl; [done|].
  destruct parts as [|x parts _] using rev_ind; [done|].
  unfold map_indexed. rewrite imap_app, List.filter_app, length_app.
  rewrite filter_imap_none.
  - simpl. rewrite length_app, Nat.add_0_r. simpl.
    destruct (Z.eqb_spec (Z.of_nat (length parts))
                (Z.of_nat (length parts + 1) - 1)); [|lia].
    simpl. by destruct (length parts + 1 =? 0)%nat eqn:E;
      [apply Nat.eqb_eq in E; lia|].
  - intros j y Hj. apply lookup_lt_Some in Hj.
    rewrite length_app. simpl.
    by destruct (Z.eqb_spec (Z.of_nat j) (Z.of_nat (length parts + 1) - 1));
      [lia|].
Qed.

Lemma users_after_middle pre m rest :
  users_after (pre ++ m :: rest) (length pre) = user_count rest.
Proof.
  unfold users_after, user_count.
  replace (drop (S (length pre)) (pre ++ m :: rest)) with rest; [done|].
  change (pre ++ m :: rest) with (pre ++ [m] ++ rest).
  rewrite app_assoc.
  by rewrite drop_app_length' by (rewrite length_app; simpl; lia).
Qed.

Lemma cached_messages_marks msgs :
  total_directives (Anthropic.cached_messages msgs) = tail_marks msgs.
Proof.
  unfold Anthropic.cached_messages, map_indexed.
  set (last := Anthropic.lastUserMsgIndex msgs).
  set (second := Anthropic.secondLastMsgUserIndex msgs).
  assert (Hsuf : forall suf pre, msgs = pre ++ suf ->
            total_directives
              (imap (fun i x => Anthropic.mark_message last second x (length pre + i))
                    suf)
            = tail_marks suf).
  { induction suf as [|m rest IH]; intros pre Hmsgs; [done|].
    rewrite imap_cons. simpl. f_equal.
    - rewrite directives_mark, Nat.add_0_r.
      pose proof (marked_positions msgs (length pre)) as Hpos.
      fold last second in Hpos. rewrite Hpos, Hmsgs.
      rewrite list_lookup_middle by done.
      by rewrite users_after_middle.
    - rewrite <- (IH (pre ++ [m])).
      + f_equal. apply imap_ext. intros j x _. simpl.
        f_equal. rewrite length_app. simpl. lia.
      + by rewrite <- app_assoc. }
  by apply (Hsuf msgs []).
Qed.

Lemma user_count_cons m rest :
  user_count (m :: rest) = (if is_user m then 1 else 0) + user_count rest.
Proof. unfold user_count. simpl. by destruct (is_user m). Qed.

Lemma tail_marks_bound msgs :
  tail_marks msgs <= Nat.min 2 (user_count msgs)
  /\ (forallb (fun m => implb (is_user m) (has_parts m)) msgs = true ->
      tail_marks msgs = Nat.min 2 (user_count msgs)).
Proof.
  induction msgs as [|m rest [IHle IHeq]]; [done|].
  rewrite user_count_cons. cbn [tail_marks forallb].
  destruct (is_user m) eqn:Hu; cbn [andb implb].
  - destruct (Nat.ltb_spec (user_count rest) 2) as [Hlt|Hge]; cbn [andb].
    + split.
      * destruct (has_parts m); lia.
      * intros [-> Hrest]%andb_true_iff. specialize (IHeq Hrest). lia.
    + split; [lia|]. intros [_ Hrest]%andb_true_iff.
      specialize (IHeq Hrest). lia.
  - split; [lia|]. intros Hrest. specialize (IHeq Hrest). lia.
Qed.

(** X16: the messages of a request of the prompt caching branch carry at
    most two cache directives, and never more than there are user messages;
    when every user message has at least one content part they carry exactly
    two, or one when the conversation has a single user message, or none
    when it has no user message. The request has as many messages as the
    conversation, and on the other branch its messages carry no directive. *)
Theorem X16_directive_count (msgs : list MessageParam) :
  total_directives (Anthropic.cached_messages msgs) <= 2
  /\ total_directives (Anthropic.cached_messages msgs) <= user_count msgs
  /\ (forallb (fun m => implb (is_user m) (has_parts m)) msgs = true ->
      total_directives (Anthropic.cached_messages msgs)
        = Nat.min 2 (user_count msgs))
  /\ total_directives (AnthropicDup.cached_messages msgs)
     = total_directives (Anthropic.cached_messages msgs)
  /\ length (Anthropic.cached_messages msgs) = length msgs
  /\ total_directives (as_is <$> msgs) = 0.
Proof.
  rewrite cached_messages_marks.
  destruct (tail_marks_bound msgs) as [Hle Heq].
  repeat split; try done; try lia.
  - change AnthropicDup.cached_messages with Anthropic.cached_messages.
    apply cached_messages_marks.
  - unfold Anthropic.cached_messages, map_indexed. apply length_imap.
  - clear Hle Heq. induction msgs as [|m rest IH]; [done|].
    rewrite fmap_cons. simpl. by rewrite directives_as_is, IH.
Qed.

Lemma X16_witness :
  total_directives
    (Anthropic.cached_messages
       [ {| Api.role := user; Api.content := ContentString "a" |};
         {| Api.role := assistant; Api.content := ContentString "b" |};
         {| Api.role := user; Api.content := ContentBlocks [TextBlockParam "c"] |};
         {| Api.role := user; Api.content := ContentString "d" |} ])
  = Nat.min 2
      (user_count
         [ {| Api.role := user; Api.content := ContentString "a" |};
           {| Api.role := assistant; Api.content := ContentString "b" |};
           {| Api.role := user; Api.content := ContentBlocks [TextBlockParam "c"] |};
           {| Api.role := user; Api.content := ContentString "d" |} ]).
Proof.
  apply (proj1 (proj2 (proj2 (X16_directive_count _)))). reflexivity.
Defined.

(** ** The usage the second variant returns for tracing *)

Lemma dup_usage_no_start stream : forall v,
  existsb is_message_start stream = false ->
  AnthropicDup.usageData (Loop.for_await AnthropicDup.on_chunk v stream).1
    = {| AnthropicDup.inputTokens := AnthropicDup.inputTokens (AnthropicDup.usageData v);
         AnthropicDup.outputTokens :=
           last_delta (AnthropicDup.outputTokens (AnthropicDup.usageData v)) stream;
         AnthropicDup.cacheWriteTokens :=
           AnthropicDup.cacheWriteTokens (AnthropicDup.usageData v);
         AnthropicDup.cacheReadTokens :=
           AnthropicDup.cacheReadTokens (AnthropicDup.usageData v) |}.
Proof.
  induction stream as [|c rest IH]; intros v Hno.
  - simpl. by destruct (AnthropicDup.usageData v).
  - simpl in Hno. apply orb_false_iff in Hno as [Hc Hrest].
    rewrite for_await_cons. cbn [fst]. rewrite IH by done.
    destruct c as [u|n| |i [t|? ?]|i [t|?]|i|?]; try done.
    + simpl. by rewrite or_num_zero.
    + simpl. by destruct (0 <? i)%N.
Qed.

(** X17: the usage the second variant returns to the tracer when the stream
    has ended is that of the last [message_start], with the output count
    replaced by the count of the last [message_delta] chunk that follows it,
    if there is one. *)
Theorem X17_dup_usage_account before u after :
  existsb is_message_start after = false ->
  AnthropicDup.usageData
    (AnthropicDup.terminal (before ++ message_start u :: after))
  = {| AnthropicDup.inputTokens := input_tokens u;
       AnthropicDup.outputTokens := last_delta (output_tokens u) after;
       AnthropicDup.cacheWriteTokens := visible (cache_creation_input_tokens u);
       AnthropicDup.cacheReadTokens := visible (cache_read_input_tokens u) |}.
Proof.
  intros Hno. unfold AnthropicDup.terminal.
  rewrite (for_await_app AnthropicDup.on_chunk), for_await_cons. cbn [fst].
  rewrite dup_usage_no_start by done. simpl.
  by rewrite !or_num_zero, !or_undefined_visible.
Qed.

Lemma X17_witness :
  AnthropicDup.usageData
    (AnthropicDup.terminal
       ([] ++ message_start (start_usage 5 1)
          :: [message_delta 3; content_block_stop 0; message_delta 4]))
  = {| AnthropicDup.inputTokens := 5;
       AnthropicDup.outputTokens :=
         last_delta 1 [message_delta 3; content_block_stop 0; message_delta 4];
       AnthropicDup.cacheWriteTokens := visible None;
       AnthropicDup.cacheReadTokens := visible None |}.
Proof.
  apply (X17_dup_usage_account [] (start_usage 5 1)
           [message_delta 3; content_block_stop 0; message_delta 4]).
  reflexivity.
Defined.
